(** * LOGKPREDICT: the feature pipeline of [logk_lib], embedded and verified

    A shallow embedding of [logk_lib/molecular_processing.py] and
    [logk_lib/predictor.py].  Python values are modelled as follows.

    - [str] is [string]; every character is one code point in 0..255.
    - A raised exception is the [Raise] branch of [result]; only the class of
      the exception is kept, its message is not modelled.
    - Python floats, with [round], [str] and [float], are the interface
      [PyFloat]; two concrete instances are given, the floats with an
      integral value and the IEEE 754 doubles.
    - RDKit and the Chemprop executable are collaborators outside the
      package: they are the fields of the records [RDKit] and [Chemprop]. *)

From Stdlib Require Import String Ascii List ZArith Bool Lia Arith Sorted Permutation.
From Stdlib Require Import Decimal DecimalString DecimalZ.
From Stdlib Require SpecFloat Eqdep_dec.
Import ListNotations.

Local Open Scope string_scope.
Local Open Scope list_scope.

(* ================================================================= *)
(** ** Exceptions ([logk_lib/exceptions.py] and the builtins that escape) *)

Inductive exn : Type :=
| ModelNotFoundError
| InvalidInputError
| ChempropError
| MolecularProcessingError
| EnvironmentError
| ValueError      (* builtin: float() on a malformed literal *)
| IndexError      (* builtin / numpy: index of the wrong shape or range *)
| FileNotFoundError  (* builtin: a file that is opened does not exist *)
| OSError.        (* builtin: another failure of a system call *)

(** The classes deriving from [LogKPredictError]. *)
Definition LogKPredictError (e : exn) : bool :=
  match e with
  | ValueError | IndexError | FileNotFoundError | OSError => false
  | _ => true
  end.

Inductive result (A : Type) : Type :=
| Ok (a : A)
| Raise (e : exn).
Arguments Ok {A} a.
Arguments Raise {A} e.

Definition bind {A B} (r : result A) (k : A -> result B) : result B :=
  match r with
  | Ok a => k a
  | Raise e => Raise e
  end.

Notation "x <- r ;; k" := (bind r (fun x => k))
  (at level 61, r at next level, right associativity).

(** [[f(x) for x in xs]]: the first call that raises aborts the list. *)
Fixpoint comprehension {A B} (f : A -> result B) (xs : list A) : result (list B) :=
  match xs with
  | [] => Ok []
  | x :: xs' => y <- f x ;; ys <- comprehension f xs' ;; Ok (y :: ys)
  end.

(* ================================================================= *)
(** ** Python string methods *)

Module Py.

(** [str.isspace] on one character of the range 0..255. *)
Definition isspace (c : ascii) : bool :=
  let n := nat_of_ascii c in
  (((9 <=? n) && (n <=? 13)) || ((28 <=? n) && (n <=? 32))
   || (n =? 133) || (n =? 160))%nat.

Definition is_empty (s : string) : bool :=
  match s with EmptyString => true | _ => false end.

Fixpoint lstrip (s : string) : string :=
  match s with
  | String c r => if isspace c then lstrip r else s
  | EmptyString => EmptyString
  end.

Fixpoint rstrip (s : string) : string :=
  match s with
  | String c r =>
      let r' := rstrip r in
      if isspace c && is_empty r' then EmptyString else String c r'
  | EmptyString => EmptyString
  end.

(** [s.strip()] *)
Definition strip (s : string) : string := lstrip (rstrip s).

(** [s.split()]: the maximal runs of non-space characters, left to right.
    [cur] is the run being read. *)
Fixpoint split_ws (cur : string) (s : string) : list string :=
  match s with
  | EmptyString => if is_empty cur then [] else [cur]
  | String c r =>
      if isspace c
      then (if is_empty cur then split_ws "" r else cur :: split_ws "" r)
      else split_ws (cur ++ String c "") r
  end.

Definition split (s : string) : list string := split_ws "" s.

(** [s.startswith(pre)] *)
Fixpoint startswith (pre s : string) : bool :=
  match pre, s with
  | EmptyString, _ => true
  | String a pre', String b s' => Ascii.eqb a b && startswith pre' s'
  | String _ _, EmptyString => false
  end.

(** [s.split(sep)] for a non-empty [sep]: cut at every occurrence of [sep],
    scanning left to right; [skip] counts the characters of an occurrence
    still to be passed over. *)
Fixpoint split_at (sep : string) (skip : nat) (cur : string) (s : string)
  : list string :=
  match s with
  | EmptyString => [cur]
  | String c r =>
      match skip with
      | S k => split_at sep k cur r
      | O =>
          if startswith sep s
          then cur :: split_at sep (String.length sep - 1) "" r
          else split_at sep 0 (cur ++ String c "") r
      end
  end.

Definition split_sep (sep s : string) : list string := split_at sep 0 "" s.

(** [c in s] *)
Fixpoint mem_char (c : ascii) (s : string) : bool :=
  match s with
  | EmptyString => false
  | String d r => Ascii.eqb c d || mem_char c r
  end.

(** [sep.join(xs)] *)
Definition join (sep : string) (xs : list string) : string := String.concat sep xs.

End Py.

(** No piece holds a comma. *)
Definition no_commas (xs : list string) : Prop :=
  Forall (fun x => Py.mem_char "," x = false) xs.

(* ================================================================= *)
(** ** Python floats *)

(** The operations the package applies to floats.  [float_of_string] is
    [float(x)], with [None] for [ValueError]; [str_float] is [str] of a
    Python float and [str_float64] is [str] of a [numpy.float64].  The
    values are the doubles with a single not-a-number, so that [str] can
    be read back. *)
Class PyFloat (float : Type) : Type := {
  round4 : float -> float;                       (* round(f, 4) *)
  str_float : float -> string;
  str_float64 : float -> string;
  float_of_string : string -> option float;
  (* float(str(f)) gives f back *)
  float_str : forall f, float_of_string (str_float f) = Some f;
  (* float('') raises ValueError *)
  float_empty : float_of_string "" = None;
  (* the text of a float holds no comma *)
  str_float_no_comma : forall f, Py.mem_char "," (str_float f) = false;
  str_float64_no_comma : forall f, Py.mem_char "," (str_float64 f) = false
}.

Definition py_float {float} `{PyFloat float} (x : string) : result float :=
  match float_of_string x with
  | Some f => Ok f
  | None => Raise ValueError
  end.

(* ================================================================= *)
(** ** Python's [re]: the fragment the package uses *)

Module Re.

(** One character position of a pattern. *)
Inductive atom : Type :=
| Lit (c : ascii)            (* a literal character, escaped or not *)
| Range (lo hi : ascii)      (* [lo-hi] *)
| Digit.                     (* \d, on code points 0..255 *)

Inductive item : Type :=
| One (a : atom)
| Opt (a : atom).            (* a? , greedy *)

(** A pattern of two capture groups [(g1)(g2)]. *)
Definition pattern : Type := (list item * list item)%type.

Definition char_le (a b : ascii) : bool := (nat_of_ascii a <=? nat_of_ascii b)%nat.

Definition accepts (a : atom) (c : ascii) : bool :=
  match a with
  | Lit l => Ascii.eqb l c
  | Range lo hi => char_le lo c && char_le c hi
  | Digit => char_le "0" c && char_le c "9"
  end.

(** Backtracking match of [p] at the head of [s]; [acc] is the text taken
    so far and [k] is the rest of the match.  A greedy [a?] first takes the
    character and falls back to taking nothing when the rest fails. *)
Fixpoint match_items {R : Type} (p : list item) (acc s : string)
  (k : string -> string -> option R) : option R :=
  match p with
  | [] => k acc s
  | One a :: p' =>
      match s with
      | String c r =>
          if accepts a c then match_items p' (acc ++ String c "") r k else None
      | EmptyString => None
      end
  | Opt a :: p' =>
      let without := match_items p' acc s k in
      match s with
      | String c r =>
          if accepts a c
          then match match_items p' (acc ++ String c "") r k with
               | Some x => Some x
               | None => without
               end
          else without
      | EmptyString => without
      end
  end.

(** [re.match(p, s)]: the texts of group 1 and group 2, and what follows. *)
Definition re_match (p : pattern) (s : string) : option (string * string * string) :=
  match_items (fst p) "" s (fun m1 r1 =>
    match_items (snd p) "" r1 (fun m2 r2 => Some (m1, m2, r2))).

(** [re.sub(p, repl, s)]: leftmost matches, left to right, not overlapping.
    [skip] counts the characters of the last match still to be passed. *)
Fixpoint sub_from (p : pattern) (repl : string -> string -> string)
  (skip : nat) (s : string) : string :=
  match s with
  | EmptyString =>
      match skip, re_match p "" with
      | O, Some (m1, m2, _) => repl m1 m2
      | _, _ => ""
      end
  | String c r =>
      match skip with
      | S k => sub_from p repl k r
      | O =>
          match re_match p s with
          | Some (m1, m2, _) =>
              match String.length m1 + String.length m2 with
              | O => repl m1 m2 ++ String c (sub_from p repl 0 r)
              | S n => repl m1 m2 ++ sub_from p repl n r
              end
          | None => String c (sub_from p repl 0 r)
          end
      end
  end.

Definition sub (p : pattern) (repl : string -> string -> string) (s : string)
  : string := sub_from p repl 0 s.

End Re.

(* ================================================================= *)
(** ** [logk_lib/molecular_processing.py] *)

Definition HYDROGEN : Z := 1%Z.
Definition BORON_TO_FLUORINE_RANGE : Z * Z := (5%Z, 9%Z).
Definition SILICON_TO_CHLORINE_RANGE : Z * Z := (14%Z, 17%Z).
Definition BROMINE : Z := 35%Z.

Definition DEFAULT_DONOR_ATOMS : list Z := [7%Z; 8%Z].

(** An RDKit atom as the package reads it: [GetIdx] and [GetAtomicNum]. *)
Record Atom : Type := mkAtom { GetIdx : nat; GetAtomicNum : Z }.

Definition is_transition_metal (atom : Atom) : bool :=
  let atomic_num := GetAtomicNum atom in
  let is_hydrogen := (atomic_num =? HYDROGEN)%Z in
  let is_boron_to_fluorine :=
    ((fst BORON_TO_FLUORINE_RANGE <=? atomic_num)%Z
     && (atomic_num <=? snd BORON_TO_FLUORINE_RANGE)%Z) in
  let is_silicon_to_chlorine :=
    ((fst SILICON_TO_CHLORINE_RANGE <=? atomic_num)%Z
     && (atomic_num <=? snd SILICON_TO_CHLORINE_RANGE)%Z) in
  let is_bromine := (atomic_num =? BROMINE)%Z in
  negb (is_hydrogen || is_boron_to_fluorine || is_silicon_to_chlorine || is_bromine).


(** RDKit bond types the package can meet. *)
Inductive BondType : Type :=
| UNSPECIFIED | SINGLE | DOUBLE | TRIPLE | QUADRUPLE | AROMATIC | DATIVE.

Record Bond : Type := mkBond {
  GetBeginAtomIdx : nat;
  GetEndAtomIdx : nat;
  GetBondType : BondType
}.

(** A molecule as the package reads and edits it: the atomic number of each
    atom, by index, and the bonds in the order RDKit keeps them.  Charges,
    coordinates and computed flags are not touched by the package and are
    not modelled. *)
Record Mol : Type := mkMol {
  atomic_nums : list Z;
  GetBonds : list Bond
}.

(** [mol.GetAtoms()]: every atom with its index. *)
Definition GetAtoms (mol : Mol) : list Atom :=
  map (fun p => mkAtom (fst p) (snd p))
      (combine (seq 0 (length (atomic_nums mol))) (atomic_nums mol)).

Definition atom_at (nums : list Z) (i : nat) : list Atom :=
  match nth_error nums i with
  | Some z => [mkAtom i z]
  | None => []
  end.

(** The atom at the other end of bond [b], seen from the atom of index [i];
    nothing when [b] is not a bond of that atom. *)
Definition neighbor_across (nums : list Z) (i : nat) (b : Bond) : list Atom :=
  if (GetBeginAtomIdx b =? i)%nat then atom_at nums (GetEndAtomIdx b)
  else if (GetEndAtomIdx b =? i)%nat then atom_at nums (GetBeginAtomIdx b)
  else [].

(** [atom.GetNeighbors()]: the other end of every bond at [atom], in bond
    order. *)
Definition GetNeighbors (mol : Mol) (atom : Atom) : list Atom :=
  flat_map (neighbor_across (atomic_nums mol) (GetIdx atom)) (GetBonds mol).

Definition connects (b : Bond) (i j : nat) : bool :=
  ((GetBeginAtomIdx b =? i) && (GetEndAtomIdx b =? j)
   || (GetBeginAtomIdx b =? j) && (GetEndAtomIdx b =? i))%nat.

Fixpoint remove_first (i j : nat) (bs : list Bond) : list Bond :=
  match bs with
  | [] => []
  | b :: bs' => if connects b i j then bs' else b :: remove_first i j bs'
  end.

(** [mol.RemoveBond(i, j)]: drops the bond between [i] and [j], whichever
    way it points; nothing happens when there is none. *)
Definition RemoveBond (mol : Mol) (i j : nat) : Mol :=
  mkMol (atomic_nums mol) (remove_first i j (GetBonds mol)).

(** [mol.AddBond(i, j, t)]: the new bond, from [i] to [j], goes last. *)
Definition AddBond (mol : Mol) (i j : nat) (t : BondType) : Mol :=
  mkMol (atomic_nums mol) (GetBonds mol ++ [mkBond i j t]).

Definition _find_transition_metals (mol : Mol) : list Atom :=
  filter is_transition_metal (GetAtoms mol).

Definition is_donor (donor_atoms : list Z) (a : Atom) : bool :=
  existsb (Z.eqb (GetAtomicNum a)) donor_atoms.

(** The body of the inner loop, for one neighbour of one metal. *)
Definition convert_bond (donor_atoms : list Z) (metal : Atom) (mol : Mol)
  (neighbor : Atom) : Mol :=
  if is_donor donor_atoms neighbor
  then AddBond (RemoveBond mol (GetIdx neighbor) (GetIdx metal))
               (GetIdx neighbor) (GetIdx metal) DATIVE
  else mol.

(** The neighbours of a metal are read once, when its loop starts. *)
Definition convert_metal (donor_atoms : list Z) (mol : Mol) (metal : Atom) : Mol :=
  fold_left (convert_bond donor_atoms metal) (GetNeighbors mol metal) mol.

Definition _convert_bonds_to_dative (mol : Mol) (metals : list Atom)
  (donor_atoms : list Z) : Mol :=
  fold_left (convert_metal donor_atoms) metals mol.

Definition SELECTED_DESCRIPTORS : list string :=
  [ "PEOE_VSA1"; "PEOE_VSA10"; "PEOE_VSA11"; "PEOE_VSA12"; "PEOE_VSA13";
    "PEOE_VSA14"; "PEOE_VSA2"; "PEOE_VSA3"; "PEOE_VSA4"; "PEOE_VSA5";
    "PEOE_VSA6"; "PEOE_VSA7"; "PEOE_VSA8"; "PEOE_VSA9"; "RingCount";
    "SMR_VSA1"; "SMR_VSA10"; "SMR_VSA2"; "SMR_VSA3"; "SMR_VSA4";
    "SMR_VSA5"; "SMR_VSA6"; "SMR_VSA7"; "SMR_VSA8"; "SMR_VSA9";
    "SlogP_VSA1"; "SlogP_VSA10"; "SlogP_VSA11"; "SlogP_VSA12"; "SlogP_VSA2";
    "SlogP_VSA3"; "SlogP_VSA4"; "SlogP_VSA5"; "SlogP_VSA6"; "SlogP_VSA7";
    "SlogP_VSA8"; "SlogP_VSA9"; "TPSA"; "VSA_EState1"; "VSA_EState10" ].

Definition metal_hydrogen_pattern : Re.pattern :=
  ( [ Re.One (Re.Lit "-"); Re.One (Re.Lit ">"); Re.One (Re.Lit "[");
      Re.One (Re.Range "A" "Z"); Re.Opt (Re.Range "a" "z") ],
    [ Re.One (Re.Lit "H"); Re.Opt Re.Digit ] ).

Definition hydrogen_bracket_pattern : Re.pattern :=
  ( [ Re.One (Re.Lit "H"); Re.Opt Re.Digit ],
    [ Re.One (Re.Lit "+"); Re.Opt Re.Digit; Re.One (Re.Lit "]");
      Re.One (Re.Lit "<"); Re.One (Re.Lit "-") ] ).

Definition clean_smiles (smiles : string) : string :=
  let cleaned_smiles := Re.sub metal_hydrogen_pattern (fun g1 _ => g1) smiles in
  let cleaned_smiles := Re.sub hydrogen_bracket_pattern (fun _ g2 => g2) cleaned_smiles in
  cleaned_smiles.

(** [except Exception as e: raise MolecularProcessingError(...)] *)
Definition wrap_molecular {A} (r : result A) : result A :=
  match r with
  | Ok a => Ok a
  | Raise _ => Raise MolecularProcessingError
  end.

Section MolecularProcessor.
Context {float : Type} `{PyFloat float}.

(** The RDKit calls of the package.  [MolFromMolBlock] answers [None] for
    a block it cannot parse; [Descriptor nm mol] is the descriptor function
    named [nm], its value taken as a float (an integer count such as
    [RingCount] is the float that [float(str(v))] makes of it later);
    [SanitizeMol] is the call with the six flags of [_sanitize_molecule]
    and [catchErrors=True]. *)
Record RDKit : Type := mkRDKit {
  MolFromMolBlock : string -> option Mol;
  SanitizeMol : Mol -> Mol;
  Descriptor : string -> Mol -> float;
  MolToSmiles : Mol -> string
}.

Variable rdkit : RDKit.

(** [MolecularDescriptorCalculator(names).CalcDescriptors(mol)]: one value
    for each name, in the order of the names. *)
Definition CalcDescriptors (names : list string) (mol : Mol) : list float :=
  map (fun nm => Descriptor rdkit nm mol) names.

(** The text of a descriptor vector: [", ".join(str(val) for val in vals)]. *)
Definition descriptor_text (descriptor_vals : list float) : string :=
  let descriptor_strs := map str_float descriptor_vals in
  Py.join ", " descriptor_strs.

Definition calculate_descriptors (mol : Mol) : result string :=
  wrap_molecular
    (let descriptor_vals := CalcDescriptors SELECTED_DESCRIPTORS mol in
     Ok (descriptor_text descriptor_vals)).

Definition _sanitize_molecule (mol : Mol) : Mol := SanitizeMol rdkit mol.

(** [Chem.RWMol(mol)] is a copy, here the value itself, and
    [UpdatePropertyCache(strict=False)] touches no atom and no bond. *)
Definition set_dative_bonds (mol : Mol) (donor_atoms : list Z) : result Mol :=
  wrap_molecular
    (let rwmol := mol in
     let metals := _find_transition_metals rwmol in
     let rwmol := _convert_bonds_to_dative rwmol metals donor_atoms in
     let rwmol := _sanitize_molecule rwmol in
     Ok rwmol).

Definition process_mol_block (mol_block : string) : result (Mol * string * string) :=
  wrap_molecular
    (match MolFromMolBlock rdkit mol_block with
     | None => Raise MolecularProcessingError
     | Some mol =>
         mol_with_dative <- set_dative_bonds mol DEFAULT_DONOR_ATOMS ;;
         descriptors <- calculate_descriptors mol_with_dative ;;
         let smiles := MolToSmiles rdkit mol_with_dative in
         let clean := clean_smiles smiles in
         Ok (mol_with_dative, descriptors, clean)
     end).

End MolecularProcessor.
Arguments RDKit float : clear implicits.

(* ================================================================= *)
(** ** [logk_lib/predictor.py] *)

Definition EXPECTED_FEATURES : list string :=
  [ "logK(I=0.0)"; "logK_in"; "I_in"; "Z_lig"; "Z_met"; "nrot"; "met_r";
    "met_CN"; "E_strain"; "G_solv"; "rdhE"; "rdhC" ].

Definition _MASK_STR : string :=
  "False  True False False  True  True  True  True  True  True  True False False  True  True  True  True False  True  True  True  True False  True True True False False False False False False False False True False False False False False False True False False False False False False False False".

(** [eval(x)] on the two literals of [_MASK_STR]. *)
Definition py_eval (x : string) : option bool :=
  if x =? "True" then Some true
  else if x =? "False" then Some false
  else None.

Definition FEATURE_MASK : list bool :=
  flat_map (fun x => match py_eval x with Some b => [b] | None => [] end)
           (Py.split _MASK_STR).

(** The positions a boolean mask selects, in ascending order. *)
Definition true_indices (mask : list bool) : list nat :=
  filter (fun i => nth i mask false) (seq 0 (length mask)).

(** [arr[mask]] for a one-dimensional numpy array and a boolean array:
    numpy raises [IndexError] when the two lengths differ, unless the
    boolean array is empty, which selects nothing from any array. *)
Fixpoint select {A} (arr : list A) (mask : list bool) : list A :=
  match arr, mask with
  | a :: arr', b :: mask' => if b then a :: select arr' mask' else select arr' mask'
  | _, _ => []
  end.

Definition np_bool_index {A} (arr : list A) (mask : list bool) : result (list A) :=
  if ((length mask =? length arr) || (length mask =? 0))%nat
  then Ok (select arr mask) else Raise IndexError.

Definition newline : string := String "010" "".

Definition feature_header : string :=
  "I_in, Z_lig, Z_met, nrot, met_r, met_CN, E_strain, G_solv, rdhE, rdhC".

(** The two files written for Chemprop: [input.csv] and [features.csv]. *)
Definition _create_input_files (smiles features : string) : string * string :=
  (("smiles" ++ newline ++ smiles ++ newline)%string,
   (feature_header ++ newline ++ features ++ newline)%string).

(** The lines read up to the end marker ([break] at the first [$$$$]). *)
Fixpoint mol_lines_of (lines : list string) : list string :=
  match lines with
  | [] => []
  | line :: lines' =>
      if Py.strip line =? "$$$$" then [] else line :: mol_lines_of lines'
  end.

Definition _extract_mol_block (lines : list string) : result string :=
  let mol_lines := mol_lines_of lines in
  match mol_lines with
  | [] => Raise InvalidInputError
  | _ => Ok (Py.join "" mol_lines)
  end.

Section LogKPredictor.
Context {float : Type} `{PyFloat float}.

Definition _parse_features (feature_line : string) : result (list float) :=
  match
    (let feature_values := Py.split (Py.strip feature_line) in
     let selected_features := skipn 2 feature_values in
     comprehension py_float selected_features)
  with
  | Raise ValueError | Raise IndexError => Raise InvalidInputError
  | r => r
  end.

(** [all_features] of [_combine_features]: the array the mask is applied to. *)
Definition all_features_of (features : list float) (descriptors_str : string)
  : result (list float) :=
  let rounded_features := map round4 features in
  let feature_str := Py.join ", " (map str_float rounded_features) in
  let combined_str := (feature_str ++ ", " ++ descriptors_str)%string in
  comprehension py_float (Py.split_sep ", " combined_str).

(** [_combine_features] with the mask as an argument. *)
Definition _combine_features_with (mask : list bool) (features : list float)
  (descriptors_str : string) : result string :=
  all_features <- all_features_of features descriptors_str ;;
  masked_features <- np_bool_index all_features mask ;;
  Ok (Py.join ", " (map str_float64 masked_features)).

Definition _combine_features : list float -> string -> result string :=
  _combine_features_with FEATURE_MASK.

(** One cell of a data frame, as [float(...)] sees it: a number, already
    the float that [float] makes of it, or a text. *)
Inductive cell : Type :=
| Number (f : float)
| Text (s : string).

(** [float(c)] *)
Definition cell_float (c : cell) : result float :=
  match c with
  | Number f => Ok f
  | Text s => py_float s
  end.

(** A data frame: its column labels and its rows. *)
Record DataFrame : Type := mkDataFrame {
  df_columns : list string;
  df_rows : list (list cell)
}.

(** [df.empty]: one of the two axes has length 0. *)
Definition df_empty (df : DataFrame) : bool :=
  match df_columns df, df_rows df with
  | [], _ | _, [] => true
  | _, _ => false
  end.

(** [df.iloc[i, j]], with [None] for [IndexError]. *)
Definition df_iloc (df : DataFrame) (i j : nat) : option cell :=
  match nth_error (df_rows df) i with
  | Some row => nth_error row j
  | None => None
  end.

(** How [subprocess.run(command, capture_output=True, text=True,
    check=True)] ends. *)
Inductive run_outcome : Type :=
| Exit0 (predictions : option string)
    (* exit status 0; the text of the predictions file, if one was written *)
| ExitNonzero       (* [CalledProcessError] *)
| NoSuchCommand     (* [FileNotFoundError]: the command is not in PATH *)
| CannotExecute.    (* another [OSError], such as [PermissionError] *)

(** The Chemprop side: [chemprop_predict] is the subprocess on the two
    files that were written; [pd_read_csv] is [pd.read_csv] on the text of
    a file that exists, with [None] for [EmptyDataError] and for the
    subclasses of [ValueError] it raises on text it cannot parse. *)
Record Chemprop : Type := mkChemprop {
  chemprop_predict : string -> string -> run_outcome;
  pd_read_csv : string -> option DataFrame
}.

Variable rdkit : RDKit float.
Variable chemprop : Chemprop.

(** The result is the predictions file of the temporary directory, which
    exists only if the command wrote it.  Of the exceptions of
    [subprocess.run] only [CalledProcessError] and [FileNotFoundError] are
    caught. *)
Definition _run_chemprop_prediction (input_csv features_csv : string)
  : result (option string) :=
  match chemprop_predict chemprop input_csv features_csv with
  | Exit0 predictions_csv => Ok predictions_csv
  | ExitNonzero | NoSuchCommand => Raise ChempropError
  | CannotExecute => Raise OSError
  end.

(** [except (EmptyDataError, ValueError, IndexError)]: the
    [FileNotFoundError] of [pd.read_csv] for a file that was not written is
    not caught. *)
Definition _extract_prediction (predictions_csv : option string) : result float :=
  match predictions_csv with
  | None => Raise FileNotFoundError
  | Some text =>
      match pd_read_csv chemprop text with
      | None => Raise ChempropError
      | Some df =>
          if df_empty df || (length (df_columns df) <? 2)%nat
          then Raise ChempropError
          else
            match df_iloc df 0 1 with
            | None => Raise ChempropError
            | Some c =>
                match cell_float c with
                | Ok prediction => Ok prediction
                | Raise _ => Raise ChempropError
                end
            end
      end
  end.

Definition predict (features : list float) (mol_block : string) : result float :=
  processed <- process_mol_block rdkit mol_block ;;
  let descriptors_str := snd (fst processed) in
  let smiles := snd processed in
  combined_features <- _combine_features features descriptors_str ;;
  let files := _create_input_files smiles combined_features in
  predictions_csv <- _run_chemprop_prediction (fst files) (snd files) ;;
  _extract_prediction predictions_csv.

(** [files] is the file system: the lines [readlines()] gives for a path
    that exists. *)
Definition predict_from_file (files : string -> option (list string))
  (input_file : string) : result float :=
  match files input_file with
  | None => Raise InvalidInputError
  | Some lines =>
      if (length lines <? 3)%nat then Raise InvalidInputError
      else
        features <- _parse_features (nth 1 lines "") ;;
        mol_block <- _extract_mol_block (skipn 2 lines) ;;
        predict features mol_block
  end.

End LogKPredictor.
Arguments Chemprop float : clear implicits.
Arguments DataFrame float : clear implicits.
Arguments cell float : clear implicits.

(* ================================================================= *)
(** ** Whitespace-separated tokens, stated without reference to [split] *)

Fixpoint all_chars (P : ascii -> bool) (s : string) : bool :=
  match s with
  | EmptyString => true
  | String c r => P c && all_chars P r
  end.

Definition all_space (s : string) : Prop := all_chars Py.isspace s = true.
Definition no_space (s : string) : Prop :=
  all_chars (fun c => negb (Py.isspace c)) s = true.

(** What may follow a token: the end of the text, or a space. *)
Definition ends_token (rest : string) : Prop :=
  match rest with
  | EmptyString => True
  | String c _ => Py.isspace c = true
  end.

(** [tokens_of s ts]: [s] is a run of spaces, then the first token, a
    non-empty run of non-space characters that ends at a space or at the
    end, then the text that holds the other tokens. *)
Inductive tokens_of : string -> list string -> Prop :=
| tokens_none (ws : string) :
    all_space ws -> tokens_of ws []
| tokens_next (ws t rest : string) (ts : list string) :
    all_space ws -> t <> "" -> no_space t -> ends_token rest ->
    tokens_of rest ts ->
    tokens_of (ws ++ t ++ rest) (t :: ts).

(* ================================================================= *)
(** ** The two clean-up rules of [clean_smiles], stated on the text *)

Definition is_upper (c : ascii) : Prop := 65 <= nat_of_ascii c <= 90.
Definition is_lower (c : ascii) : Prop := 97 <= nat_of_ascii c <= 122.
Definition is_digit (c : ascii) : Prop := 48 <= nat_of_ascii c <= 57.

(** At most one character, and then one that satisfies [P]. *)
Definition optional (P : ascii -> Prop) (x : string) : Prop :=
  x = "" \/ exists c, x = String c "" /\ P c.

Definition starts_with_digit (s : string) : Prop :=
  match s with
  | String c _ => is_digit c
  | EmptyString => False
  end.

(** [s] begins with a dative-bond-open marker and an element symbol,
    [kept], followed by a hydrogen-count token: [H] and at most one digit,
    the digit being taken when there is one.  [rest] is what follows. *)
Definition metal_hydrogen_at (s kept rest : string) : Prop :=
  exists (U : ascii) (low d : string),
    is_upper U /\ optional is_lower low /\ optional is_digit d
    /\ (d = "" -> ~ starts_with_digit rest)
    /\ kept = ("->[" ++ String U low)%string
    /\ s = (kept ++ "H" ++ d ++ rest)%string.

(** [s] begins with a hydrogen-count token followed by a charge and a
    dative-bond-close marker, [kept]: a plus sign, at most one digit, and
    the closing bracket with the arrow. *)
Definition hydrogen_bracket_at (s kept rest : string) : Prop :=
  exists d n : string,
    optional is_digit d /\ optional is_digit n
    /\ kept = ("+" ++ n ++ "]<-")%string
    /\ s = ("H" ++ d ++ kept ++ rest)%string.

(** One pass over a text, left to right: where [occ] holds the occurrence
    is replaced by what it keeps and the pass goes on after it; elsewhere
    one character is copied. *)
Inductive rewritten (occ : string -> string -> string -> Prop)
  : string -> string -> Prop :=
| rewritten_end : rewritten occ "" ""
| rewritten_hit (s kept rest out : string) :
    occ s kept rest -> rewritten occ rest out ->
    rewritten occ s (kept ++ out)
| rewritten_copy (c : ascii) (r out : string) :
    (forall kept rest, ~ occ (String c r) kept rest) ->
    rewritten occ r out ->
    rewritten occ (String c r) (String c out).

(** No occurrence of [occ] starts anywhere in [s]. *)
Definition occurs_nowhere (occ : string -> string -> string -> Prop)
  (s : string) : Prop :=
  forall pre suf kept rest, s = (pre ++ suf)%string -> ~ occ suf kept rest.

(* ================================================================= *)
(** ** Metal-donor bonds and structural content *)

(** [b] joins the atom [metal] to a donor atom. *)
Definition metal_donor (donor_atoms : list Z) (nums : list Z) (metal : Atom)
  (b : Bond) : bool :=
  existsb (is_donor donor_atoms) (neighbor_across nums (GetIdx metal) b).



(** What the inner loop makes of bond [b] for one metal: the dative bond
    from the donor to the metal when [b] joins them, [b] itself otherwise. *)
Definition dative_of (donor_atoms : list Z) (nums : list Z) (metal : Atom)
  (b : Bond) : Bond :=
  match filter (is_donor donor_atoms) (neighbor_across nums (GetIdx metal) b) with
  | neighbor :: _ => mkBond (GetIdx neighbor) (GetIdx metal) DATIVE
  | [] => b
  end.

(** The same, for the metals taken one after the other. *)
Definition reclassified (donor_atoms : list Z) (nums : list Z)
  (metals : list Atom) (b : Bond) : Bond :=
  fold_left (fun b metal => dative_of donor_atoms nums metal b) metals b.

(** The edit that [set_dative_bonds] makes before it sanitizes. *)
Definition reclassify (donor_atoms : list Z) (mol : Mol) : Mol :=
  _convert_bonds_to_dative mol (_find_transition_metals mol) donor_atoms.

(** [d] is the dative bond from a donor atom to one of [metals]. *)
Definition dative_to (donor_atoms : list Z) (nums : list Z)
  (metals : list Atom) (d : Bond) : Prop :=
  exists n z metal,
    In metal metals /\ nth_error nums n = Some z
    /\ is_donor donor_atoms (mkAtom n z) = true
    /\ d = mkBond n (GetIdx metal) DATIVE.

(** Bonds that the reclassification leaves in place: those that join no
    metal to a donor, and the dative bonds from a donor to a metal. *)
Definition settled (donor_atoms : list Z) (mol : Mol) (b : Bond) : Prop :=
  (forall m, In m (_find_transition_metals mol) ->
             metal_donor donor_atoms (atomic_nums mol) m b = false)
  \/ dative_to donor_atoms (atomic_nums mol) (_find_transition_metals mol) b.


(** No donor element is itself classified as a transition metal. *)
Definition donors_not_metals (donor_atoms : list Z) : Prop :=
  forall z i, In z donor_atoms -> is_transition_metal (mkAtom i z) = false.

(** A record is terminated when one of its lines is exactly [$$$$], spaces
    and the line end aside. *)
Definition has_terminator (lines : list string) : Prop :=
  Exists (fun line => Py.strip line = "$$$$") lines.

(* ================================================================= *)
(** ** A concrete float: the floats with an integral value

    The values are the integers; [str] writes them the way Python writes
    an integral float ([3.0], [-12.0]), and [float] reads such a text, or
    a plain integer text ([3], [-12]).  Every other text is refused, the
    empty one included.  [round(f, 4)] leaves an integral float as it is. *)

Module IntegralFloat.

Definition float : Type := Z.

(** [s] without its final [.0], when it has one. *)
Fixpoint strip_dot_zero (s : string) : option string :=
  match s with
  | EmptyString => None
  | String c r =>
      if s =? ".0" then Some "" else option_map (String c) (strip_dot_zero r)
  end.

Definition int_literal (s : string) : option Z :=
  option_map Z.of_int (NilZero.int_of_string s).

Definition of_string (s : string) : option float :=
  match strip_dot_zero s with
  | Some p => int_literal p
  | None => int_literal s
  end.

Definition to_string (f : float) : string :=
  (NilZero.string_of_int (Z.to_int f) ++ ".0")%string.

Definition round (f : float) : float := f.

End IntegralFloat.

(* ================================================================= *)
(** ** A concrete float: the doubles

    The IEEE 754 binary64 values of [SpecFloat], with 53 bits of
    precision.  [round], [repr] and [float] follow CPython: each is
    correctly rounded, so each is given by its value. *)

Module Binary64.
Import SpecFloat.
Local Open Scope Z_scope.

Definition prec : Z := 53.
Definition emax : Z := 1024.

(** Two doubles are the same double. *)
Definition eqb (x y : spec_float) : bool :=
  match x, y with
  | S754_zero s, S754_zero t => Bool.eqb s t
  | S754_infinity s, S754_infinity t => Bool.eqb s t
  | S754_nan, S754_nan => true
  | S754_finite s m e, S754_finite t n f => Bool.eqb s t && Pos.eqb m n && Z.eqb e f
  | _, _ => false
  end.

(** The double nearest to [d * 10^k], ties to even: what a correctly
    rounded [strtod] makes of the digits [d] and the exponent [k]. *)
Definition of_decimal (s : bool) (d k : Z) : spec_float :=
  match d with
  | Zpos p =>
      if 0 <=? k
      then binary_normalize prec emax (cond_Zopp s (Zpos p * 10 ^ k)) 0 s
      else SFdiv prec emax (S754_finite s p 0)
                 (S754_finite false (Z.to_pos (10 ^ (- k))) 0)
  | _ => S754_zero s
  end.

(** The integer nearest to [n / d], the even one of two that are equally
    near. *)
Definition nearest_even (n d : Z) : Z :=
  let (a, r) := Z.div_eucl n d in
  match 2 * r ?= d with
  | Lt => a
  | Gt => a + 1
  | Eq => if Z.even a then a else a + 1
  end.

(** [m * 2^e] as a fraction. *)
Definition fraction (m : positive) (e : Z) : Z * Z :=
  if 0 <=? e then (Zpos m * 2 ^ e, 1) else (Zpos m, 2 ^ (- e)).

(** [d] is positive and [q] is the integer nearest to [n / d], the even
    one when two integers are equally near. *)
Definition nearest_to_even (n d q : Z) : Prop :=
  0 < d
  /\ 2 * Z.abs (n - q * d) <= d
  /\ (2 * Z.abs (n - q * d) = d -> Z.even q = true).

(** [round(x, 4)]: the exact value of [x] is rounded to the nearest
    multiple of [10^-4], to the even one of two that are equally near,
    and the double nearest to that decimal is returned.  Zeros,
    infinities and not-a-number are returned as they are. *)
Definition round4 (x : spec_float) : spec_float :=
  match x with
  | S754_finite s m e =>
      let (n, d) := fraction m e in
      of_decimal s (nearest_even (n * 10 ^ 4) d) (-4)
  | _ => x
  end.

(** *** [repr], which is also [str], of a float: the shortest decimal
    that [float] reads back as the same double, the nearest one when
    there are several, written with an exponent when the decimal point
    would be far from the digits. *)

(** The number of decimal digits of [n]. *)
Fixpoint count_digits (fuel : nat) (n : Z) : Z :=
  match fuel with
  | O => 0
  | S fuel' => if n <? 10 then 1 else 1 + count_digits fuel' (n / 10)
  end.

(** The number of zeros between the decimal point and the first digit
    of [n/d], which is below 1. *)
Fixpoint zeros_after_point (fuel : nat) (n d : Z) : Z :=
  match fuel with
  | O => 0
  | S fuel' => if d <=? n * 10 then 0 else 1 + zeros_after_point fuel' (n * 10) d
  end.

(** The [k] with [10^(k-1) <= n/d < 10^k]. *)
Definition decimal_point (n d : Z) : Z :=
  if d <=? n then count_digits 400 (n / d) else - zeros_after_point 400 n d.

(** The decimal of [digits] digits nearest to [n/d], among those that
    [float] reads back as [x]: its digits and its exponent. *)
Definition digits_at (x : spec_float) (n d decpt digits : Z) : option (Z * Z) :=
  let k := decpt - digits in
  let (a, b) := if k <=? 0 then (n * 10 ^ (- k), d) else (n, d * 10 ^ k) in
  let lo := a / b in
  let hi := lo + 1 in
  match eqb (of_decimal false lo k) x, eqb (of_decimal false hi k) x with
  | true, false => Some (lo, k)
  | false, true => Some (hi, k)
  | true, true =>
      match 2 * a ?= (2 * lo + 1) * b with
      | Lt => Some (lo, k)
      | Gt => Some (hi, k)
      | Eq => Some (if Z.even lo then lo else hi, k)
      end
  | false, false => None
  end.

Fixpoint shortest_from (fuel : nat) (x : spec_float) (n d decpt digits : Z)
  : option (Z * Z) :=
  match fuel with
  | O => None
  | S fuel' =>
      match digits_at x n d decpt digits with
      | Some r => Some r
      | None => shortest_from fuel' x n d decpt (digits + 1)
      end
  end.

Fixpoint strip_zeros (fuel : nat) (d k : Z) : Z * Z :=
  match fuel with
  | O => (d, k)
  | S fuel' => if (d mod 10 =? 0) && (0 <? d) then strip_zeros fuel' (d / 10) (k + 1)
               else (d, k)
  end.

Definition digit_char (n : Z) : ascii :=
  match n with
  | 0 => "0" | 1 => "1" | 2 => "2" | 3 => "3" | 4 => "4"
  | 5 => "5" | 6 => "6" | 7 => "7" | 8 => "8" | _ => "9"
  end%char.

Fixpoint digits_of (fuel : nat) (n : Z) (acc : string) : string :=
  match fuel with
  | O => acc
  | S fuel' =>
      let acc' := String (digit_char (n mod 10)) acc in
      if n <? 10 then acc' else digits_of fuel' (n / 10) acc'
  end.

Definition decimal (n : Z) : string := digits_of 400 n "".

Fixpoint zeros (n : nat) : string :=
  match n with O => "" | S n' => String "0" (zeros n') end.

Fixpoint take (n : nat) (s : string) : string :=
  match n, s with
  | S n', String c r => String c (take n' r)
  | _, _ => ""
  end.

Fixpoint drop (n : nat) (s : string) : string :=
  match n, s with
  | S n', String c r => drop n' r
  | _, _ => s
  end.

(** The digits [ds] with the decimal point after the first [decpt] of
    them, written the way [repr] writes a float. *)
Definition format_repr (ds : string) (decpt : Z) : string :=
  if (decpt <=? -4) || (16 <? decpt) then
    let e := decpt - 1 in
    let mantissa :=
      match ds with
      | String c EmptyString => String c ""
      | String c r => String c (String "." r)
      | EmptyString => ""
      end in
    let sign := if e <? 0 then "-" else "+" in
    let pad := if Z.abs e <? 10 then "0" else "" in
    (mantissa ++ "e" ++ sign ++ pad ++ decimal (Z.abs e))%string
  else if decpt <=? 0 then
    ("0." ++ zeros (Z.to_nat (- decpt)) ++ ds)%string
  else
    let len := Z.of_nat (String.length ds) in
    if len <=? decpt then (ds ++ zeros (Z.to_nat (decpt - len)) ++ ".0")%string
    else (take (Z.to_nat decpt) ds ++ "." ++ drop (Z.to_nat decpt) ds)%string.

Definition repr (x : spec_float) : string :=
  match x with
  | S754_nan => "nan"
  | S754_infinity s => if s then "-inf" else "inf"
  | S754_zero s => if s then "-0.0" else "0.0"
  | S754_finite s m e =>
      let (n, d) := fraction m e in
      let decpt := decimal_point n d in
      let body :=
        match shortest_from 17 (S754_finite false m e) n d decpt 1 with
        | Some (dg, k) =>
            let (dg', k') := strip_zeros 20 dg k in
            let ds := decimal dg' in
            format_repr ds (k' + Z.of_nat (String.length ds))
        | None => ""
        end in
      ((if s then "-" else "") ++ body)%string
  end.

(** *** [float] on a text: spaces around the literal are dropped, the
    words [inf], [infinity] and [nan] are read in any case, and a decimal
    literal is rounded to the nearest double. *)

Definition is_digit (c : ascii) : bool :=
  let n := nat_of_ascii c in ((48 <=? n) && (n <=? 57))%nat.

Definition lower (c : ascii) : ascii :=
  let n := nat_of_ascii c in
  if ((65 <=? n) && (n <=? 90))%nat then ascii_of_nat (n + 32) else c.

Fixpoint lower_string (s : string) : string :=
  match s with
  | EmptyString => EmptyString
  | String c r => String (lower c) (lower_string r)
  end.

(** Underscores may only stand between two digits; they are then dropped.
    [prev] tells whether the character before is a digit. *)
Fixpoint drop_underscores (prev : bool) (s : string) : option string :=
  match s with
  | EmptyString => Some EmptyString
  | String c r =>
      if Ascii.eqb c "_" then
        match r with
        | String c' _ =>
            if prev && is_digit c' then drop_underscores false r else None
        | EmptyString => None
        end
      else option_map (String c) (drop_underscores (is_digit c) r)
  end.

(** A run of digits at the head of [s]: its value, its length, the rest. *)
Fixpoint read_digits (s : string) (acc : Z) (len : Z) : Z * Z * string :=
  match s with
  | String c r =>
      if is_digit c
      then read_digits r (10 * acc + Z.of_nat (nat_of_ascii c - 48)) (len + 1)
      else (acc, len, s)
  | EmptyString => (acc, len, s)
  end.

Definition read_sign (s : string) : bool * string :=
  match s with
  | String "-" r => (true, r)
  | String "+" r => (false, r)
  | _ => (false, s)
  end.

(** The exponent part, which may be absent. *)
Definition read_exponent (s : string) : option Z :=
  match s with
  | EmptyString => Some 0
  | String c r =>
      if Ascii.eqb (lower c) "e" then
        let (sg, r') := read_sign r in
        match read_digits r' 0 0 with
        | (v, len, EmptyString) =>
            if 0 <? len then Some (if sg then - v else v) else None
        | _ => None
        end
      else None
  end.

Definition parse_number (sg : bool) (s : string) : option spec_float :=
  match read_digits s 0 0 with
  | (int_part, int_len, rest) =>
      let '(frac_part, frac_len, rest') :=
        match rest with
        | String "." r => read_digits r int_part 0
        | _ => (int_part, 0, rest)
        end in
      if 0 <? int_len + frac_len then
        match read_exponent rest' with
        | Some ex => Some (of_decimal sg frac_part (ex - frac_len))
        | None => None
        end
      else None
  end.

(** [float(s)], with [None] for [ValueError]. *)
Definition parse (s : string) : option spec_float :=
  let (sg, body) := read_sign (Py.strip s) in
  let word := lower_string body in
  if (word =? "inf")%string || (word =? "infinity")%string then Some (S754_infinity sg)
  else if (word =? "nan")%string then Some S754_nan
  else
    match drop_underscores false body with
    | Some digits => parse_number sg digits
    | None => None
    end.


(** *** The floats of the interface

    [float] reads back what [repr] writes, and rounding a rounded value
    changes nothing.  Both are checked on a double here, and the floats
    of the interface are the doubles that pass the check. *)

Definition reads_back (x : spec_float) : bool :=
  match parse (repr x) with
  | Some y => eqb y x
  | None => false
  end.

Definition ok (x : spec_float) : bool :=
  valid_binary prec emax x && reads_back x
  && (let r := round4 x in
      valid_binary prec emax r && reads_back r && eqb (round4 r) r).

Definition float : Type := { x : spec_float | ok x = true }.

Definition value (f : float) : spec_float := proj1_sig f.

(** [float(s)] as a float of the interface: the double that is read has
    to pass the check. *)
Definition of_string (s : string) : option float :=
  match parse s with
  | Some x =>
      match Bool.bool_dec (ok x) true with
      | left checked => Some (exist _ x checked)
      | right _ => None
      end
  | None => None
  end.

Definition to_string (f : float) : string := repr (value f).

End Binary64.

(* ================================================================= *)
(** ** Concrete inputs for the examples *)

Module Example.

(** An RDKit that parses no block, leaves a molecule as it is under
    sanitization, and gives every descriptor the value 0. *)
Definition rdkit : RDKit IntegralFloat.float :=
  mkRDKit (fun _ => None) (fun mol => mol) (fun _ _ => 0%Z) (fun _ => "").

(** A Chemprop whose command is not installed. *)
Definition chemprop : Chemprop IntegralFloat.float :=
  mkChemprop (fun _ _ => NoSuchCommand) (fun _ => None).













(** A copper atom with two amine nitrogens, one of them on a carbon. *)
Definition copper_diamine : Mol :=
  mkMol [29%Z; 7%Z; 7%Z; 6%Z]
        [mkBond 0 1 SINGLE; mkBond 1 3 SINGLE; mkBond 2 0 SINGLE].

(** Water, with its hydrogens written out. *)
Definition water : Mol :=
  mkMol [8%Z; 1%Z; 1%Z] [mkBond 0 1 SINGLE; mkBond 0 2 SINGLE].

(** Forty descriptor values. *)
Definition zeros : list IntegralFloat.float := repeat 0%Z 40.

(** Twelve tokens: two that are dropped and ten scalar features. *)
Definition feature_line : string :=
  "complex 12.0 0.0 -1.0 2.0 3.0 1.0 6.0 150.0 -20.0 0.0 1.0" ++ newline.

Definition ten_features : list IntegralFloat.float :=
  [0; -1; 2; 3; 1; 6; 150; -20; 0; 1]%Z.

(** A record of three lines with no [$$$$] line. *)
Definition unterminated : list string :=
  [ "header" ++ newline; "complex 12.0 0.0 -1.0" ++ newline;
    "no structure here" ++ newline ]%string.

Definition files (lines : list string) (path : string) : option (list string) :=
  if path =? "logk_input" then Some lines else None.

End Example.

(* ================================================================= *)
(** ** [logk_lib/predictor.py]: the constructor of [LogKPredictor] *)

Definition ENVIRONMENT_VARIABLE_NAME : string := "LOGKPREDICT_DIR".
Definition MODEL_FILENAME : string := "model.pt".
Definition INPUT_FILENAME : string := "logk_input".
Definition OUTPUT_FILENAME : string := "logk_output".

(** What the constructor asks of the machine: [Path_of s] is [Path(s)],
    [joinpath p name] is [p / name], [environ_get] is [os.environ.get] and
    [path_exists p] is [p.exists()], with [None] for the [OSError] that
    [exists] lets through when the file cannot be examined (a directory
    that may not be searched, a name that is too long). *)
Record Host (Path : Type) : Type := mkHost {
  Path_of : string -> Path;
  joinpath : Path -> string -> Path;
  environ_get : string -> option string;
  path_exists : Path -> option bool
}.
Arguments Path_of {Path} h s.
Arguments joinpath {Path} h p name.
Arguments environ_get {Path} h name.
Arguments path_exists {Path} h p.

(** The state [__init__] leaves in the object. *)
Record LogKPredictor (Path : Type) : Type := mkLogKPredictor {
  self_model_dir : Path;
  self_model_path : Path
}.
Arguments mkLogKPredictor {Path} _ _.
Arguments self_model_dir {Path} l.
Arguments self_model_path {Path} l.

Section Constructor.
Context {Path : Type}.
Variable host : Host Path.

(** [if model_dir:] and [if not env_dir:] are tests of an optional string:
    [None] and the empty string are both false. *)
Definition _determine_model_directory (model_dir : option string) : result Path :=
  match model_dir with
  | Some (String c r) => Ok (Path_of host (String c r))
  | _ =>
      let env_dir := environ_get host ENVIRONMENT_VARIABLE_NAME in
      match env_dir with
      | Some (String c r) => Ok (Path_of host (String c r))
      | _ => Raise EnvironmentError
      end
  end.

Definition _validate_model_exists (model_dir : Path) : result Path :=
  let model_path := joinpath host model_dir MODEL_FILENAME in
  match path_exists host model_path with
  | Some true => Ok model_path
  | Some false => Raise ModelNotFoundError
  | None => Raise OSError
  end.

(** [LogKPredictor.__init__] *)
Definition LogKPredictor_init (model_dir : option string)
  : result (LogKPredictor Path) :=
  dir <- _determine_model_directory model_dir ;;
  path <- _validate_model_exists dir ;;
  Ok (mkLogKPredictor dir path).

End Constructor.

(* ================================================================= *)
(** ** The characters of a hydrogen-count token *)

Definition hydrogen_count_char (c : ascii) : bool :=
  Ascii.eqb c "H" || Re.accepts Re.Digit c.

(** [s] without its letters H and its digits. *)
Fixpoint without_hydrogen_counts (s : string) : string :=
  match s with
  | EmptyString => EmptyString
  | String c r =>
      if hydrogen_count_char c then without_hydrogen_counts r
      else String c (without_hydrogen_counts r)
  end.

(* ================================================================= *)
(** ** More concrete inputs *)

Module Demo.

(** An RDKit that reads every block as the copper diamine, leaves a
    molecule as it is under sanitization, gives every descriptor the value
    0 and writes one fixed text for every molecule. *)
Definition rdkit : RDKit IntegralFloat.float :=
  mkRDKit (fun _ => Some Example.copper_diamine) (fun mol => mol)
          (fun _ _ => 0%Z) (fun _ => "CN->[CuH2]<-N").

(** A Chemprop that answers 5 whatever it is given. *)
Definition chemprop : Chemprop IntegralFloat.float :=
  mkChemprop
    (fun _ _ => Exit0 (Some ("smiles,logK" ++ newline ++ "CN,5.0" ++ newline)%string))
    (fun _ => Some (mkDataFrame ["smiles"; "logK"] [[Text "CN"; Number 5%Z]])).


(** A machine whose paths are texts, with one model file, the
    environment variable set, and a directory [/root] that may not be
    searched. *)
Definition host : Host string :=
  mkHost string (fun s => s) (fun p name => (p ++ "/" ++ name)%string)
    (fun name => if name =? "LOGKPREDICT_DIR" then Some "/opt/logk" else None)
    (fun p => if Py.startswith "/root/" p then None
              else Some (p =? "/opt/logk/model.pt")).

(** The lines of a structural block, and what may follow its end. *)
Definition block : list string :=
  [ "  1  0" ++ newline; "M  END" ++ newline ]%string.

Definition end_line : string := " $$$$ " ++ newline.

Definition second_record : list string :=
  [ "after" ++ newline; "$$$$" ]%string.

End Demo.

(* ================================================================= *)
(** * Theorems *)

(* ================================================================= *)
(** ** Strings *)

Lemma append_nil_r (s : string) : (s ++ "")%string = s.
Proof. induction s; simpl; congruence. Qed.

Lemma append_assoc (a b c : string) : ((a ++ b) ++ c)%string = (a ++ (b ++ c))%string.
Proof. induction a; simpl; congruence. Qed.

Lemma append_snoc (a : string) (c : ascii) (b : string) :
  ((a ++ String c "") ++ b)%string = (a ++ String c b)%string.
Proof. now rewrite append_assoc. Qed.

Lemma length_append (a b : string) :
  String.length (a ++ b) = String.length a + String.length b.
Proof. induction a; simpl; congruence. Qed.

Lemma mem_char_append (c : ascii) (a b : string) :
  Py.mem_char c (a ++ b) = Py.mem_char c a || Py.mem_char c b.
Proof. induction a; simpl; [reflexivity|]. now rewrite IHa, orb_assoc. Qed.

(** *** [split(", ")] after [", ".join] *)

Lemma split_at_piece (p cur rest : string) :
  Py.mem_char "," p = false ->
  Py.split_at ", " 0 cur (p ++ rest) = Py.split_at ", " 0 (cur ++ p) rest.
Proof.
  revert cur; induction p as [|c p IH]; intros cur Hp.
  - cbn. now rewrite append_nil_r.
  - cbn [Py.mem_char] in Hp. apply orb_false_elim in Hp as [Hc Hp].
    cbn [String.append Py.split_at Py.startswith]. rewrite Hc. cbn [andb].
    rewrite IH by assumption. now rewrite append_snoc.
Qed.

Lemma split_at_sep (cur rest : string) :
  Py.split_at ", " 0 cur (", " ++ rest) = cur :: Py.split_at ", " 0 "" rest.
Proof. reflexivity. Qed.

Lemma split_at_join (x : string) (xs : list string) (cur : string) :
  no_commas (x :: xs) ->
  Py.split_at ", " 0 cur (Py.join ", " (x :: xs)) = (cur ++ x)%string :: xs.
Proof.
  revert x cur; induction xs as [|y ys IH]; intros x cur Hx;
    inversion Hx as [|? ? Hx1 Hx2]; subst.
  - cbn. rewrite <- (append_nil_r x) at 1.
    now rewrite split_at_piece by assumption.
  - change (Py.join ", " (x :: y :: ys))
      with (x ++ ", " ++ Py.join ", " (y :: ys))%string.
    rewrite split_at_piece by assumption.
    rewrite split_at_sep. f_equal. now apply IH.
Qed.

Lemma split_join (xs : list string) :
  xs <> [] -> no_commas xs -> Py.split_sep ", " (Py.join ", " xs) = xs.
Proof.
  destruct xs as [|x xs]; [congruence|]; intros _ Hx.
  unfold Py.split_sep. now rewrite split_at_join.
Qed.

Lemma join_app (xs ys : list string) :
  xs <> [] -> ys <> [] ->
  Py.join ", " (xs ++ ys) = (Py.join ", " xs ++ ", " ++ Py.join ", " ys)%string.
Proof.
  intros Hx Hy. induction xs as [|x xs IH]; [congruence|].
  destruct xs as [|x' xs].
  - destruct ys; [congruence|]. reflexivity.
  - change (Py.join ", " ((x :: x' :: xs) ++ ys))
      with (x ++ ", " ++ Py.join ", " ((x' :: xs) ++ ys))%string.
    rewrite IH by discriminate.
    change (Py.join ", " (x :: x' :: xs))
      with (x ++ ", " ++ Py.join ", " (x' :: xs))%string.
    now rewrite !append_assoc.
Qed.

(** A join that ends in the separator splits into its pieces and one
    empty piece. *)
Lemma split_join_trailing (xs : list string) :
  xs <> [] -> no_commas xs ->
  Py.split_sep ", " (Py.join ", " xs ++ ", ") = xs ++ [""].
Proof.
  intros Hx Hc. unfold Py.split_sep.
  assert (G : forall x xs cur, no_commas (x :: xs) ->
     Py.split_at ", " 0 cur (Py.join ", " (x :: xs) ++ ", ")
     = ((cur ++ x)%string :: xs) ++ [""]).
  { clear. intros x xs; revert x; induction xs as [|y ys IH]; intros x cur Hx;
      inversion Hx as [|? ? Hx1 Hx2]; subst.
    - cbn [Py.join String.concat]. rewrite split_at_piece by assumption.
      reflexivity.
    - change (Py.join ", " (x :: y :: ys))
        with (x ++ ", " ++ Py.join ", " (y :: ys))%string.
      rewrite !append_assoc. rewrite split_at_piece by assumption.
      rewrite split_at_sep. cbn [app]. f_equal.
      rewrite IH by assumption. reflexivity. }
  destruct xs as [|x xs]; [congruence|]. now rewrite G.
Qed.

(** *** [split()] gives the whitespace-separated tokens *)

Lemma split_ws_rstrip (s cur : string) :
  Py.split_ws cur (Py.rstrip s) = Py.split_ws cur s.
Proof.
  revert cur; induction s as [|c s IH]; intros cur; [reflexivity|].
  cbn [Py.rstrip Py.split_ws].
  destruct (Py.isspace c) eqn:Hc; cbn [andb].
  - destruct (Py.rstrip s) eqn:Hr; cbn [Py.is_empty].
    + rewrite <- (IH ""). cbn [Py.split_ws Py.is_empty].
      now destruct (Py.is_empty cur).
    + cbn [Py.split_ws]. rewrite Hc, <- (IH ""). reflexivity.
  - cbn [Py.split_ws]. rewrite Hc. apply IH.
Qed.

Lemma split_ws_lstrip (s : string) :
  Py.split_ws "" (Py.lstrip s) = Py.split_ws "" s.
Proof.
  induction s as [|c s IH]; [reflexivity|].
  cbn [Py.lstrip Py.split_ws]. destruct (Py.isspace c) eqn:Hc.
  - exact IH.
  - cbn [Py.split_ws]. now rewrite Hc.
Qed.

Lemma split_strip (s : string) : Py.split (Py.strip s) = Py.split s.
Proof.
  unfold Py.split, Py.strip. now rewrite split_ws_lstrip, split_ws_rstrip.
Qed.

Lemma no_space_snoc (cur : string) (c : ascii) :
  no_space cur -> Py.isspace c = false -> no_space (cur ++ String c "").
Proof.
  unfold no_space. induction cur as [|a cur IH]; cbn [String.append all_chars].
  - intros _ ->. reflexivity.
  - intros Ha Hc. apply andb_prop in Ha as [Ha Hcur].
    now rewrite Ha, IH.
Qed.

Lemma tokens_of_space_cons (c : ascii) (s : string) (ts : list string) :
  Py.isspace c = true -> tokens_of s ts -> tokens_of (String c s) ts.
Proof.
  intros Hc Hs. destruct Hs as [ws Hws | ws t rest ts Hws Ht Hn He Hr].
  - apply tokens_none. unfold all_space in *. cbn [all_chars].
    now rewrite Hc, Hws.
  - change (String c (ws ++ t ++ rest)) with (String c ws ++ t ++ rest)%string.
    apply tokens_next; try assumption.
    unfold all_space in *. cbn [all_chars]. now rewrite Hc, Hws.
Qed.

Lemma split_ws_tokens (s cur : string) :
  no_space cur -> tokens_of (cur ++ s) (Py.split_ws cur s).
Proof.
  revert cur; induction s as [|c s IH]; intros cur Hcur.
  - cbn [Py.split_ws]. destruct cur as [|a cur]; cbn [Py.is_empty].
    + now apply tokens_none.
    + apply (tokens_next "" (String a cur) "" []);
        [reflexivity | discriminate | assumption | exact I
        | now apply tokens_none].
  - cbn [Py.split_ws]. destruct (Py.isspace c) eqn:Hc.
    + assert (Hs : tokens_of (String c s) (Py.split_ws "" s)).
      { apply tokens_of_space_cons; [assumption|]. now apply (IH ""). }
      destruct cur as [|a cur]; cbn [Py.is_empty].
      * exact Hs.
      * apply (tokens_next "" (String a cur) (String c s));
          [reflexivity | discriminate | assumption | exact Hc | exact Hs].
    + rewrite <- append_snoc. apply IH. now apply no_space_snoc.
Qed.

Lemma split_ws_spaces (ws s : string) :
  all_space ws -> Py.split_ws "" (ws ++ s) = Py.split_ws "" s.
Proof.
  unfold all_space. induction ws as [|c ws IH]; [reflexivity|].
  cbn [all_chars String.append Py.split_ws]. intros Hc.
  apply andb_prop in Hc as [Hc Hws]. rewrite Hc. now apply IH.
Qed.

Lemma split_ws_token (t cur rest : string) :
  no_space t -> Py.split_ws cur (t ++ rest) = Py.split_ws (cur ++ t) rest.
Proof.
  unfold no_space. revert cur; induction t as [|c t IH]; intros cur.
  - intros _. now rewrite append_nil_r.
  - cbn [all_chars String.append Py.split_ws]. intros Hc.
    apply andb_prop in Hc as [Hc Ht]. apply negb_true_iff in Hc.
    rewrite Hc, IH by assumption. now rewrite append_snoc.
Qed.

(** The tokens of a text are those [split()] returns, and no others. *)
Lemma tokens_of_split (s : string) (ts : list string) :
  tokens_of s ts <-> ts = Py.split s.
Proof.
  split.
  - unfold Py.split. induction 1 as [ws Hws | ws t rest ts Hws Ht Hn He Hr IH].
    + rewrite <- (append_nil_r ws). now rewrite split_ws_spaces.
    + rewrite split_ws_spaces, split_ws_token by assumption.
      cbn [String.append]. destruct rest as [|c rest].
      * cbn [Py.split_ws] in *. subst ts. now destruct t.
      * cbn [Py.split_ws] in *. cbn in He. rewrite He in *. subst ts.
        now destruct t.
  - intros ->. apply (split_ws_tokens s ""). reflexivity.
Qed.

(* ================================================================= *)
(** ** Comprehensions *)

Lemma comprehension_app {A B} (f : A -> result B) (xs ys : list A) :
  comprehension f (xs ++ ys)
  = (a <- comprehension f xs ;; b <- comprehension f ys ;; Ok (a ++ b)).
Proof.
  induction xs as [|x xs IH]; simpl.
  - destruct (comprehension f ys); reflexivity.
  - destruct (f x); simpl; [|reflexivity]. rewrite IH.
    destruct (comprehension f xs); simpl; [|reflexivity].
    destruct (comprehension f ys); reflexivity.
Qed.

Lemma comprehension_length {A B} (f : A -> result B) (xs : list A) (ys : list B) :
  comprehension f xs = Ok ys -> length ys = length xs.
Proof.
  revert ys; induction xs as [|x xs IH]; simpl; intros ys.
  - now intros [= <-].
  - destruct (f x); simpl; [|discriminate].
    destruct (comprehension f xs); simpl; [|discriminate].
    intros [= <-]. simpl. f_equal. now apply IH.
Qed.

(* ================================================================= *)
(** ** [logk_lib/molecular_processing.py] *)

(** C3.  [is_transition_metal] is a total predicate: it answers [false]
    exactly for atomic number 1, for 5..9, for 14..17 and for 35, and
    [true] for every other atomic number. *)
Theorem is_transition_metal_spec (atom : Atom) :
  let n := GetAtomicNum atom in
  let excluded := (n = 1 \/ 5 <= n <= 9 \/ 14 <= n <= 17 \/ n = 35)%Z in
  (is_transition_metal atom = false <-> excluded)
  /\ (is_transition_metal atom = true <-> ~ excluded).
Proof.
  destruct atom as [i n]; cbn -[Z.leb Z.eqb].
  unfold is_transition_metal, HYDROGEN, BORON_TO_FLUORINE_RANGE,
    SILICON_TO_CHLORINE_RANGE, BROMINE; cbn -[Z.leb Z.eqb].
  destruct (Z.eqb_spec n 1), (Z.leb_spec 5 n), (Z.leb_spec n 9),
    (Z.leb_spec 14 n), (Z.leb_spec n 17), (Z.eqb_spec n 35);
    cbn; split; split; intros; try discriminate; try lia; auto.
Qed.

(* ================================================================= *)
(** ** Dative bonds *)

Section DativeBonds.
Variable donor_atoms : list Z.
Variable nums : list Z.

Lemma neighbor_across_cases (i : nat) (b : Bond) :
  neighbor_across nums i b = []
  \/ exists n z, neighbor_across nums i b = [mkAtom n z]
                 /\ nth_error nums n = Some z
                 /\ connects b n i = true.
Proof.
  unfold neighbor_across, atom_at, connects.
  destruct (Nat.eqb_spec (GetBeginAtomIdx b) i) as [Hb|Hb].
  - destruct (nth_error nums (GetEndAtomIdx b)) as [z|] eqn:Hz; [|now left].
    right. exists (GetEndAtomIdx b), z. split; [reflexivity|].
    split; [assumption|]. apply orb_true_iff. right.
    apply andb_true_iff. now rewrite !Nat.eqb_eq.
  - destruct (Nat.eqb_spec (GetEndAtomIdx b) i) as [He|He]; [|now left].
    destruct (nth_error nums (GetBeginAtomIdx b)) as [z|] eqn:Hz; [|now left].
    right. exists (GetBeginAtomIdx b), z. split; [reflexivity|].
    split; [assumption|]. apply orb_true_iff. left.
    apply andb_true_iff. now rewrite !Nat.eqb_eq.
Qed.

(** A bond that is not a metal-donor bond of [metal] does not join [metal]
    to any donor atom. *)
Lemma not_metal_donor_not_connects (metal : Atom) (b : Bond) (n : nat) (z : Z) :
  metal_donor donor_atoms nums metal b = false ->
  nth_error nums n = Some z -> is_donor donor_atoms (mkAtom n z) = true ->
  connects b n (GetIdx metal) = false.
Proof.
  unfold metal_donor, neighbor_across, atom_at, connects.
  intros Hmd Hn Hd.
  destruct (Nat.eqb_spec (GetBeginAtomIdx b) n) as [Hbn|Hbn];
    destruct (Nat.eqb_spec (GetEndAtomIdx b) (GetIdx metal)) as [Hem|Hem];
    destruct (Nat.eqb_spec (GetBeginAtomIdx b) (GetIdx metal)) as [Hbm|Hbm];
    destruct (Nat.eqb_spec (GetEndAtomIdx b) n) as [Hen|Hen];
    cbn [andb orb]; try reflexivity; exfalso;
    repeat match goal with
           | H : GetBeginAtomIdx b = _ |- _ => rewrite H in *
           | H : GetEndAtomIdx b = _ |- _ => rewrite H in *
           end;
    try (rewrite <- Hbm in *); try (rewrite <- Hem in * );
    rewrite ?Hn in Hmd; cbn [existsb] in Hmd; rewrite ?Hd in Hmd;
    try discriminate; congruence.
Qed.

Lemma remove_first_skip (i j : nat) (K R : list Bond) (b : Bond) :
  (forall k, In k K -> connects k i j = false) ->
  connects b i j = true ->
  remove_first i j (K ++ b :: R) = K ++ R.
Proof.
  intros HK Hb. induction K as [|k K IH]; simpl.
  - now rewrite Hb.
  - rewrite (HK k) by now left. f_equal. apply IH.
    intros k' Hk'. apply HK. now right.
Qed.

Lemma dative_of_plain (metal : Atom) (b : Bond) :
  metal_donor donor_atoms nums metal b = false ->
  dative_of donor_atoms nums metal b = b.
Proof.
  unfold metal_donor, dative_of.
  destruct (neighbor_across_cases (GetIdx metal) b) as [->|(n & z & -> & _)];
    [reflexivity|].
  cbn [existsb filter]. rewrite orb_false_r. now intros ->.
Qed.

(** The inner loop over the bonds [todo] still to be read: [seen] are the
    bonds already passed, [added] the dative bonds already appended. *)
Lemma convert_loop (metal : Atom) (todo seen added : list Bond) :
  (forall k, In k seen -> metal_donor donor_atoms nums metal k = false) ->
  fold_left (convert_bond donor_atoms metal)
    (flat_map (neighbor_across nums (GetIdx metal)) todo)
    (mkMol nums (seen ++ todo ++ added))
  = mkMol nums
      ((seen ++ filter (fun b => negb (metal_donor donor_atoms nums metal b)) todo)
       ++ (added ++ map (dative_of donor_atoms nums metal)
                    (filter (metal_donor donor_atoms nums metal) todo))).
Proof.
  revert seen added; induction todo as [|b todo IH]; intros seen added HK.
  - cbn. now rewrite !app_nil_r.
  - cbn [flat_map filter]. rewrite fold_left_app.
    assert (Hplain : metal_donor donor_atoms nums metal b = false ->
      fold_left (convert_bond donor_atoms metal)
        (flat_map (neighbor_across nums (GetIdx metal)) todo)
        (mkMol nums (seen ++ (b :: todo) ++ added))
      = mkMol nums
          ((seen ++ b :: filter (fun b => negb (metal_donor donor_atoms nums metal b)) todo)
           ++ (added ++ map (dative_of donor_atoms nums metal)
                        (filter (metal_donor donor_atoms nums metal) todo)))).
    { intros Hb.
      replace (seen ++ (b :: todo) ++ added) with ((seen ++ [b]) ++ todo ++ added)
        by (now rewrite <- !app_assoc).
      rewrite IH.
      - now rewrite <- !app_assoc.
      - intros k Hk. apply in_app_or in Hk as [Hk|[<-|[]]]; auto. }
    destruct (neighbor_across_cases (GetIdx metal) b)
      as [Hnb|(n & z & Hnb & Hz & Hc)].
    + assert (Hb : metal_donor donor_atoms nums metal b = false)
        by (unfold metal_donor; now rewrite Hnb).
      rewrite Hnb, Hb. cbn [fold_left negb]. now apply Hplain.
    + destruct (is_donor donor_atoms (mkAtom n z)) eqn:Hd.
      * assert (Hb : metal_donor donor_atoms nums metal b = true)
          by (unfold metal_donor; rewrite Hnb; cbn; now rewrite Hd).
        rewrite Hnb, Hb. cbn [fold_left negb map].
        unfold convert_bond at 2. rewrite Hd.
        unfold AddBond, RemoveBond. cbn [atomic_nums GetBonds GetIdx].
        change ((b :: todo) ++ added) with (b :: todo ++ added).
        rewrite remove_first_skip.
        -- replace ((seen ++ todo ++ added) ++ [mkBond n (GetIdx metal) DATIVE])
             with (seen ++ todo ++ (added ++ [mkBond n (GetIdx metal) DATIVE]))
             by (now rewrite <- !app_assoc).
           rewrite IH by assumption. f_equal. f_equal.
           rewrite <- app_assoc. f_equal. cbn [app]. f_equal.
           unfold dative_of. rewrite Hnb. cbn [filter]. now rewrite Hd.
        -- intros k Hk. apply (not_metal_donor_not_connects metal k n z); auto.
        -- exact Hc.
      * assert (Hb : metal_donor donor_atoms nums metal b = false)
          by (unfold metal_donor; rewrite Hnb; cbn; now rewrite Hd).
        rewrite Hnb, Hb. cbn [fold_left negb].
        unfold convert_bond at 2. rewrite Hd. now apply Hplain.
Qed.

(** One metal: its donor bonds leave their places and come back last, as
    dative bonds, in the order they had. *)
Lemma convert_metal_bonds (B : list Bond) (metal : Atom) :
  convert_metal donor_atoms (mkMol nums B) metal
  = mkMol nums
      (filter (fun b => negb (metal_donor donor_atoms nums metal b)) B
       ++ map (dative_of donor_atoms nums metal)
              (filter (metal_donor donor_atoms nums metal) B)).
Proof.
  unfold convert_metal, GetNeighbors. cbn [atomic_nums GetBonds].
  pose proof (convert_loop metal B [] []) as H.
  cbn [app] in H. rewrite app_nil_r in H. apply H. intros k [].
Qed.

Lemma partition_map_perm {A} (P : A -> bool) (f : A -> A) (l : list A) :
  (forall a, P a = false -> f a = a) ->
  Permutation (filter (fun a => negb (P a)) l ++ map f (filter P l)) (map f l).
Proof.
  intros Hf. induction l as [|a l IH]; [constructor|].
  cbn [filter map]. destruct (P a) eqn:Ha; cbn [negb].
  - apply Permutation_sym, Permutation_cons_app, Permutation_sym, IH.
  - cbn [app]. rewrite (Hf a Ha). now constructor.
Qed.

Lemma convert_metal_perm (B : list Bond) (metal : Atom) :
  Permutation (GetBonds (convert_metal donor_atoms (mkMol nums B) metal))
              (map (dative_of donor_atoms nums metal) B).
Proof.
  rewrite convert_metal_bonds. cbn [GetBonds].
  apply partition_map_perm. apply dative_of_plain.
Qed.

Lemma convert_metal_nums (B : list Bond) (metal : Atom) :
  atomic_nums (convert_metal donor_atoms (mkMol nums B) metal) = nums.
Proof. now rewrite convert_metal_bonds. Qed.

(** All metals: up to the order of the bonds, every bond is replaced by
    its reclassification. *)
Lemma convert_bonds_perm (metals : list Atom) (B : list Bond) :
  atomic_nums (_convert_bonds_to_dative (mkMol nums B) metals donor_atoms) = nums
  /\ Permutation
       (GetBonds (_convert_bonds_to_dative (mkMol nums B) metals donor_atoms))
       (map (reclassified donor_atoms nums metals) B).
Proof.
  unfold _convert_bonds_to_dative, reclassified.
  revert B; induction metals as [|metal metals IH]; intros B.
  - cbn. split; [reflexivity|]. now rewrite map_id.
  - cbn [fold_left]. rewrite convert_metal_bonds.
    destruct (IH (filter (fun b => negb (metal_donor donor_atoms nums metal b)) B
                  ++ map (dative_of donor_atoms nums metal)
                         (filter (metal_donor donor_atoms nums metal) B)))
      as [Hn Hp].
    split; [exact Hn|]. etransitivity; [exact Hp|].
    rewrite <- (map_map (dative_of donor_atoms nums metal)
                  (fun b => fold_left
                     (fun b metal => dative_of donor_atoms nums metal b)
                     metals b)).
    apply Permutation_map. apply partition_map_perm. apply dative_of_plain.
Qed.


End DativeBonds.

(* ================================================================= *)
(** ** Reclassification twice is reclassification once *)

Lemma GetAtoms_nth (mol : Mol) (a : Atom) :
  In a (GetAtoms mol) ->
  nth_error (atomic_nums mol) (GetIdx a) = Some (GetAtomicNum a).
Proof.
  unfold GetAtoms.
  assert (G : forall l k a,
    In a (map (fun p => mkAtom (fst p) (snd p)) (combine (seq k (length l)) l)) ->
    k <= GetIdx a /\ nth_error l (GetIdx a - k) = Some (GetAtomicNum a)).
  { clear. induction l as [|z l IH]; intros k a; cbn [length seq combine map].
    - intros [].
    - intros [<-|Hin]; cbn [GetIdx GetAtomicNum fst snd].
      + split; [lia|]. now rewrite Nat.sub_diag.
      + apply IH in Hin as [Hk Hn]. split; [lia|].
        replace (GetIdx a - k) with (S (GetIdx a - S k)) by lia. exact Hn. }
  intros Hin. specialize (G _ 0 a Hin) as [_ G].
  now rewrite Nat.sub_0_r in G.
Qed.

Lemma find_metals_spec (mol : Mol) (metal : Atom) :
  In metal (_find_transition_metals mol) ->
  is_transition_metal metal = true
  /\ nth_error (atomic_nums mol) (GetIdx metal) = Some (GetAtomicNum metal).
Proof.
  unfold _find_transition_metals. intros Hin.
  apply filter_In in Hin as [Hin Hm]. split; [exact Hm|].
  now apply GetAtoms_nth.
Qed.

Lemma is_donor_In (donor_atoms : list Z) (a : Atom) :
  is_donor donor_atoms a = true -> In (GetAtomicNum a) donor_atoms.
Proof.
  unfold is_donor. intros H. apply existsb_exists in H as (z & Hz & E).
  apply Z.eqb_eq in E. now rewrite E.
Qed.

Section Settled.
Variable donor_atoms : list Z.
Variable mol : Mol.
Hypothesis donors_plain : donors_not_metals donor_atoms.

Let nums := atomic_nums mol.
Let metals := _find_transition_metals mol.

(** A donor atom is not one of the metals. *)
Lemma donor_is_not_metal (n : nat) (z : Z) (metal : Atom) :
  In metal metals -> nth_error nums n = Some z ->
  is_donor donor_atoms (mkAtom n z) = true -> n <> GetIdx metal.
Proof.
  intros Hm Hn Hd ->. apply find_metals_spec in Hm as [Hm Hz].
  fold nums in Hz. rewrite Hz in Hn. injection Hn as <-.
  apply is_donor_In in Hd. cbn [GetAtomicNum] in Hd.
  specialize (donors_plain _ (GetIdx metal) Hd).
  destruct metal as [i z]. cbn [GetIdx GetAtomicNum] in *. congruence.
Qed.

Lemma dative_of_dative (d : Bond) (metal : Atom) :
  dative_to donor_atoms nums metals d -> In metal metals ->
  dative_of donor_atoms nums metal d = d.
Proof.
  intros (n & z & m & Hm & Hn & Hd & ->) Hmetal.
  pose proof (donor_is_not_metal n z metal Hmetal Hn Hd) as Hne.
  unfold dative_of, neighbor_across, atom_at.
  cbn [GetBeginAtomIdx GetEndAtomIdx].
  destruct (Nat.eqb_spec n (GetIdx metal)) as [E|_]; [contradiction|].
  destruct (Nat.eqb_spec (GetIdx m) (GetIdx metal)) as [E|_]; [|reflexivity].
  rewrite Hn. cbn [filter]. rewrite Hd. cbn [GetIdx]. now rewrite E.
Qed.

Lemma reclassified_dative (d : Bond) (ms : list Atom) :
  dative_to donor_atoms nums metals d -> incl ms metals ->
  reclassified donor_atoms nums ms d = d.
Proof.
  intros Hd. unfold reclassified.
  induction ms as [|m ms IH]; intros Hi; [reflexivity|].
  cbn [fold_left]. rewrite dative_of_dative; [|assumption|apply Hi; now left].
  apply IH. intros x Hx. apply Hi. now right.
Qed.

Lemma dative_of_metal_donor (b : Bond) (metal : Atom) :
  In metal metals -> metal_donor donor_atoms nums metal b = true ->
  dative_to donor_atoms nums metals (dative_of donor_atoms nums metal b).
Proof.
  intros Hm. unfold metal_donor, dative_of.
  destruct (neighbor_across_cases nums (GetIdx metal) b)
    as [->|(n & z & -> & Hn & _)]; [discriminate|].
  cbn [existsb filter]. rewrite orb_false_r. intros Hd. rewrite Hd.
  exists n, z, metal. now repeat split.
Qed.

(** A bond comes out of the reclassification either as it was, being no
    metal-donor bond, or as the dative bond to a metal. *)
Lemma reclassified_cases (ms : list Atom) (b : Bond) :
  incl ms metals ->
  (reclassified donor_atoms nums ms b = b
   /\ forall m, In m ms -> metal_donor donor_atoms nums m b = false)
  \/ dative_to donor_atoms nums metals (reclassified donor_atoms nums ms b).
Proof.
  unfold reclassified. revert b; induction ms as [|m ms IH]; intros b Hi.
  - left. split; [reflexivity|]. intros m [].
  - cbn [fold_left].
    assert (Hms : incl ms metals) by (intros x Hx; apply Hi; now right).
    destruct (metal_donor donor_atoms nums m b) eqn:Hb.
    + right.
      assert (Hd : dative_to donor_atoms nums metals
                     (dative_of donor_atoms nums m b)).
      { apply dative_of_metal_donor; [apply Hi; now left | exact Hb]. }
      pose proof (reclassified_dative _ ms Hd Hms) as E.
      unfold reclassified in E. now rewrite E.
    + rewrite (dative_of_plain _ _ _ _ Hb).
      destruct (IH b Hms) as [[E Hn]|Hd]; [left|now right].
      split; [exact E|]. intros x [<-|Hx]; auto.
Qed.

Lemma reclassified_settled (b : Bond) :
  settled donor_atoms mol (reclassified donor_atoms nums metals b).
Proof.
  destruct (reclassified_cases metals b (incl_refl _)) as [[E Hn]|Hd].
  - left. now rewrite E.
  - now right.
Qed.


Lemma reclassify_structure :
  atomic_nums (reclassify donor_atoms mol) = nums
  /\ Permutation (GetBonds (reclassify donor_atoms mol))
                 (map (reclassified donor_atoms nums metals) (GetBonds mol)).
Proof.
  unfold reclassify, nums, metals. destruct mol as [ns B].
  apply convert_bonds_perm.
Qed.

Lemma reclassify_settled (b : Bond) :
  In b (GetBonds (reclassify donor_atoms mol)) -> settled donor_atoms mol b.
Proof.
  intros Hb. destruct reclassify_structure as [_ Hp].
  apply (Permutation_in _ Hp) in Hb. apply in_map_iff in Hb as (b0 & <- & _).
  apply reclassified_settled.
Qed.

End Settled.





Lemma default_donors_not_metals : donors_not_metals DEFAULT_DONOR_ATOMS.
Proof. intros z i [<-|[<-|[]]]; reflexivity. Qed.

Section Normalizer.
Context {float : Type}.
Variable rdkit : RDKit float.






End Normalizer.

(* ================================================================= *)
(** ** The matcher *)

Section Matcher.
Context {R : Type}.
Implicit Types (p : list Re.item) (k : string -> string -> option R).

Lemma match_one_inv a p acc s k (x : R) :
  Re.match_items (Re.One a :: p) acc s k = Some x ->
  exists c r, s = String c r /\ Re.accepts a c = true
              /\ Re.match_items p (acc ++ String c "") r k = Some x.
Proof.
  cbn [Re.match_items]. destruct s as [|c r]; [discriminate|].
  destruct (Re.accepts a c) eqn:Ha; [|discriminate]. intros E.
  now exists c, r.
Qed.

Lemma match_opt_inv a p acc s k (x : R) :
  Re.match_items (Re.Opt a :: p) acc s k = Some x ->
  (exists c r, s = String c r /\ Re.accepts a c = true
               /\ Re.match_items p (acc ++ String c "") r k = Some x)
  \/ (Re.match_items p acc s k = Some x
      /\ forall c r, s = String c r -> Re.accepts a c = true ->
                     Re.match_items p (acc ++ String c "") r k = None).
Proof.
  cbn [Re.match_items]. destruct s as [|c r].
  - intros E. right. split; [exact E|]. discriminate.
  - destruct (Re.accepts a c) eqn:Ha.
    + destruct (Re.match_items p (acc ++ String c "") r k) as [y|] eqn:Hy.
      * intros [= <-]. left. now exists c, r.
      * intros E. right. split; [exact E|]. now intros c' r' [= <- <-] _.
    + intros E. right. split; [exact E|]. intros c' r' [= <- <-]. congruence.
Qed.

Lemma match_one_step a p acc c r k :
  Re.accepts a c = true ->
  Re.match_items (Re.One a :: p) acc (String c r) k
  = Re.match_items p (acc ++ String c "") r k.
Proof. intros Ha. cbn [Re.match_items]. now rewrite Ha. Qed.

Lemma match_opt_take a p acc c r k (x : R) :
  Re.accepts a c = true ->
  Re.match_items p (acc ++ String c "") r k = Some x ->
  Re.match_items (Re.Opt a :: p) acc (String c r) k = Some x.
Proof. intros Ha Hx. cbn [Re.match_items]. now rewrite Ha, Hx. Qed.

Lemma match_opt_skip a p acc s k :
  match s with String c _ => Re.accepts a c = false | EmptyString => True end ->
  Re.match_items (Re.Opt a :: p) acc s k = Re.match_items p acc s k.
Proof.
  cbn [Re.match_items]. destruct s as [|c r]; [reflexivity|]. now intros ->.
Qed.

(** A match takes a prefix of the text and hands it, after [acc], to [k]. *)
Lemma match_items_consumes p acc s k (x : R) :
  Re.match_items p acc s k = Some x ->
  exists m r, s = (m ++ r)%string /\ k (acc ++ m)%string r = Some x.
Proof.
  revert acc s; induction p as [|[a|a] p IH]; intros acc s.
  - cbn [Re.match_items]. intros E. exists "", s.
    now rewrite append_nil_r.
  - intros E. apply match_one_inv in E as (c & r & -> & _ & E).
    apply IH in E as (m & r' & -> & E). exists (String c m), r'.
    split; [reflexivity|]. now rewrite <- append_snoc.
  - intros E. apply match_opt_inv in E as [(c & r & -> & _ & E)|[E _]].
    + apply IH in E as (m & r' & -> & E). exists (String c m), r'.
      split; [reflexivity|]. now rewrite <- append_snoc.
    + now apply IH.
Qed.

End Matcher.

Lemma re_match_splits (p : Re.pattern) (s m1 m2 rest : string) :
  Re.re_match p s = Some (m1, m2, rest) -> s = (m1 ++ m2 ++ rest)%string.
Proof.
  unfold Re.re_match. intros E.
  apply match_items_consumes in E as (a & r & -> & E).
  apply match_items_consumes in E as (b & r' & -> & E).
  cbn in E. now injection E as <- <- <-.
Qed.

Lemma sub_from_skip (p : Re.pattern) repl (m rest : string) :
  Re.sub_from p repl (String.length m) (m ++ rest) = Re.sub_from p repl 0 rest.
Proof. induction m as [|c m IH]; [reflexivity|]. exact IH. Qed.

(** The three equations of [re.sub] for a pattern that matches no empty
    text. *)
Lemma sub_hit (p : Re.pattern) repl (s m1 m2 rest : string) :
  Re.re_match p s = Some (m1, m2, rest) -> (m1 ++ m2)%string <> "" ->
  Re.sub p repl s = (repl m1 m2 ++ Re.sub p repl rest)%string.
Proof.
  intros E Hne. pose proof (re_match_splits _ _ _ _ _ E) as Hs.
  unfold Re.sub. destruct s as [|c r].
  - destruct m1; [destruct m2; [now destruct Hne|discriminate]|discriminate].
  - cbn [Re.sub_from]. rewrite E.
    rewrite <- length_append, <- append_assoc in *.
    destruct (m1 ++ m2)%string as [|c' m] eqn:Hm; [congruence|].
    cbn [String.length]. cbn [String.append] in Hs. injection Hs as -> ->.
    now rewrite sub_from_skip.
Qed.

Lemma sub_miss (p : Re.pattern) repl (c : ascii) (r : string) :
  Re.re_match p (String c r) = None ->
  Re.sub p repl (String c r) = String c (Re.sub p repl r).
Proof. intros E. unfold Re.sub. cbn [Re.sub_from]. now rewrite E. Qed.

Section Rewriting.
Variable p : Re.pattern.
Variable repl : string -> string -> string.
Variable occ : string -> string -> string -> Prop.

Hypothesis match_occ : forall s m1 m2 rest,
  Re.re_match p s = Some (m1, m2, rest) ->
  occ s (repl m1 m2) rest /\ (m1 ++ m2)%string <> "".
Hypothesis occ_match : forall s kept rest,
  occ s kept rest ->
  exists m1 m2, Re.re_match p s = Some (m1, m2, rest) /\ repl m1 m2 = kept.

Lemma no_match_no_occ (s : string) :
  Re.re_match p s = None <-> forall kept rest, ~ occ s kept rest.
Proof.
  split.
  - intros E kept rest Ho. apply occ_match in Ho as (m1 & m2 & Ho & _).
    congruence.
  - intros Hn. destruct (Re.re_match p s) as [[[m1 m2] rest]|] eqn:E;
      [|reflexivity].
    destruct (match_occ _ _ _ _ E) as [Ho _]. now destruct (Hn _ _ Ho).
Qed.

Lemma sub_empty : Re.sub p repl "" = "".
Proof.
  unfold Re.sub. cbn [Re.sub_from].
  destruct (Re.re_match p "") as [[[m1 m2] rest]|] eqn:E; [|reflexivity].
  pose proof (re_match_splits _ _ _ _ _ E) as Hs.
  destruct (match_occ _ _ _ _ E) as [_ Hne].
  destruct m1; [destruct m2; [now destruct Hne|discriminate]|discriminate].
Qed.

Lemma sub_rewritten_bounded (n : nat) (s : string) :
  String.length s <= n -> rewritten occ s (Re.sub p repl s).
Proof.
  revert s; induction n as [|n IH]; intros s Hn.
  - destruct s; [|cbn in Hn; lia]. rewrite sub_empty. constructor.
  - destruct s as [|c r]; [rewrite sub_empty; constructor|].
    destruct (Re.re_match p (String c r)) as [[[m1 m2] rest]|] eqn:E.
    + pose proof (re_match_splits _ _ _ _ _ E) as Hs.
      destruct (match_occ _ _ _ _ E) as [Ho Hne].
      rewrite (sub_hit _ _ _ _ _ _ E Hne).
      apply (rewritten_hit occ _ _ rest); [exact Ho|]. apply IH.
      apply (f_equal String.length) in Hs.
      rewrite <- append_assoc, length_append in Hs.
      assert (String.length (m1 ++ m2) <> 0).
      { destruct (m1 ++ m2)%string; [congruence | discriminate]. }
      cbn [String.length] in *. lia.
    + rewrite (sub_miss _ _ _ _ E). apply rewritten_copy.
      * now apply no_match_no_occ.
      * apply IH. cbn in Hn. lia.
Qed.

Lemma sub_rewritten (s : string) : rewritten occ s (Re.sub p repl s).
Proof. now apply (sub_rewritten_bounded (String.length s)). Qed.

Lemma rewritten_sub (s out : string) :
  rewritten occ s out -> out = Re.sub p repl s.
Proof.
  induction 1 as [|s kept rest out Ho Hr IH|c r out Hn Hr IH].
  - now rewrite sub_empty.
  - apply occ_match in Ho as (m1 & m2 & E & <-).
    destruct (match_occ _ _ _ _ E) as [_ Hne].
    rewrite (sub_hit _ _ _ _ _ _ E Hne). now rewrite IH.
  - apply no_match_no_occ in Hn. rewrite (sub_miss _ _ _ _ Hn). now rewrite IH.
Qed.

Lemma sub_unchanged (s : string) :
  occurs_nowhere occ s -> Re.sub p repl s = s.
Proof.
  induction s as [|c r IH]; intros Hn; [apply sub_empty|].
  assert (E : Re.re_match p (String c r) = None).
  { apply no_match_no_occ. intros kept rest. now apply (Hn "" (String c r)). }
  rewrite (sub_miss _ _ _ _ E). f_equal. apply IH.
  intros pre suf kept rest ->. now apply (Hn (String c pre) suf).
Qed.

End Rewriting.

(* ================================================================= *)
(** ** The two patterns of [clean_smiles] *)

Lemma char_le_iff (a b : ascii) :
  Re.char_le a b = true <-> nat_of_ascii a <= nat_of_ascii b.
Proof. unfold Re.char_le. apply Nat.leb_le. Qed.

Lemma accepts_lit (l c : ascii) : Re.accepts (Re.Lit l) c = true <-> c = l.
Proof. cbn [Re.accepts]. rewrite Ascii.eqb_eq. split; congruence. Qed.

Lemma accepts_range (lo hi c : ascii) :
  Re.accepts (Re.Range lo hi) c = true
  <-> nat_of_ascii lo <= nat_of_ascii c <= nat_of_ascii hi.
Proof.
  cbn [Re.accepts]. now rewrite andb_true_iff, !char_le_iff.
Qed.

Lemma accepts_upper (c : ascii) :
  Re.accepts (Re.Range "A" "Z") c = true <-> is_upper c.
Proof. apply accepts_range. Qed.

Lemma accepts_lower (c : ascii) :
  Re.accepts (Re.Range "a" "z") c = true <-> is_lower c.
Proof. apply accepts_range. Qed.

Lemma accepts_digit (c : ascii) : Re.accepts Re.Digit c = true <-> is_digit c.
Proof. apply (accepts_range "0" "9"). Qed.

Lemma match_nil {R} acc s (k : string -> string -> option R) :
  Re.match_items [] acc s k = k acc s.
Proof. reflexivity. Qed.

Lemma not_digit_start (rest : string) :
  ~ starts_with_digit rest ->
  match rest with
  | String c _ => Re.accepts Re.Digit c = false
  | EmptyString => True
  end.
Proof.
  destruct rest as [|c r]; [trivial|]. cbn [starts_with_digit]. intros Hn.
  destruct (Re.accepts Re.Digit c) eqn:E; [|reflexivity].
  now apply accepts_digit in E.
Qed.

Lemma optional_none (P : ascii -> Prop) : optional P "".
Proof. now left. Qed.

Lemma optional_one (P : ascii -> Prop) (c : ascii) :
  P c -> optional P (String c "").
Proof. intros Hc. right. now exists c. Qed.

Lemma metal_hydrogen_at_intro (U : ascii) (low d rest : string) :
  is_upper U -> optional is_lower low -> optional is_digit d ->
  (d = "" -> ~ starts_with_digit rest) ->
  metal_hydrogen_at ("->[" ++ String U low ++ "H" ++ d ++ rest)
                    ("->[" ++ String U low) rest.
Proof.
  intros HU Hl Hd Hg. exists U, low, d.
  split; [exact HU|]. split; [exact Hl|]. split; [exact Hd|].
  split; [exact Hg|]. split; reflexivity.
Qed.

Lemma greedy_digit {R} (acc rest : string) (x : R) :
  (forall c r, rest = String c r -> Re.accepts Re.Digit c = true ->
               Re.match_items [] (acc ++ String c "") r
                 (fun m2 r2 => Some (x, m2, r2)) = None) ->
  ~ starts_with_digit rest.
Proof.
  intros Hg Hs. destruct rest as [|d r]; [exact Hs|].
  cbn [starts_with_digit] in Hs. apply accepts_digit in Hs.
  specialize (Hg d r eq_refl Hs). discriminate Hg.
Qed.

Ltac one_char E c r Hc :=
  apply match_one_inv in E as (c & r & -> & Hc & E).

Lemma metal_hydrogen_match_occ (s m1 m2 rest : string) :
  Re.re_match metal_hydrogen_pattern s = Some (m1, m2, rest) ->
  metal_hydrogen_at s m1 rest /\ (m1 ++ m2)%string <> "".
Proof.
  unfold Re.re_match, metal_hydrogen_pattern; cbn [fst snd]. intros E.
  one_char E c1 r1 H1. one_char E c2 r2 H2. one_char E c3 r3 H3.
  one_char E U r4 HU.
  apply accepts_lit in H1, H2, H3. subst c1 c2 c3. apply accepts_upper in HU.
  apply match_opt_inv in E as [(l & r5 & -> & Hl & E)|[E _]];
    rewrite match_nil in E; one_char E h r6 Hh; apply accepts_lit in Hh;
    subst h;
    (apply match_opt_inv in E as [(d & r7 & -> & Hd & E)|[E Hg]];
     rewrite match_nil in E; cbn [String.append] in E;
     injection E as <- <- <-; (split; [|discriminate])).
  - apply accepts_lower in Hl. apply accepts_digit in Hd.
    apply (metal_hydrogen_at_intro U (String l "") (String d "") r7);
      auto using optional_one. discriminate.
  - apply accepts_lower in Hl.
    apply (metal_hydrogen_at_intro U (String l "") "" r6);
      auto using optional_one, optional_none.
    intros _. exact (greedy_digit _ _ _ Hg).
  - apply accepts_digit in Hd.
    apply (metal_hydrogen_at_intro U "" (String d "") r7);
      auto using optional_one, optional_none. discriminate.
  - apply (metal_hydrogen_at_intro U "" "" r6);
      auto using optional_one, optional_none.
    intros _. exact (greedy_digit _ _ _ Hg).
Qed.

Lemma metal_hydrogen_occ_match (s kept rest : string) :
  metal_hydrogen_at s kept rest ->
  exists m1 m2,
    Re.re_match metal_hydrogen_pattern s = Some (m1, m2, rest) /\ m1 = kept.
Proof.
  intros (U & low & d & HU & Hl & Hd & Hg & -> & ->).
  exists ("->[" ++ String U low)%string, ("H" ++ d)%string.
  split; [|reflexivity].
  unfold Re.re_match, metal_hydrogen_pattern; cbn [fst snd String.append].
  apply accepts_upper in HU.
  rewrite !match_one_step by (reflexivity || exact HU).
  cbn [String.append].
  assert (Hh : forall acc : string,
    Re.match_items [Re.One (Re.Lit "H"); Re.Opt Re.Digit] "" ("H" ++ d ++ rest)
      (fun m2 r2 => Some (acc, m2, r2)) = Some (acc, ("H" ++ d)%string, rest)).
  { intros acc. cbn [String.append]. rewrite match_one_step by reflexivity.
    destruct Hd as [->|(c & -> & Hc)].
    - rewrite match_opt_skip; [reflexivity|].
      apply not_digit_start. now apply Hg.
    - apply accepts_digit in Hc. now apply match_opt_take. }
  destruct Hl as [->|(l & -> & Hl)].
  - rewrite match_opt_skip by reflexivity. rewrite match_nil. apply Hh.
  - apply accepts_lower in Hl. apply match_opt_take; [exact Hl|].
    rewrite match_nil. apply Hh.
Qed.

Lemma hydrogen_bracket_at_intro (d n rest : string) :
  optional is_digit d -> optional is_digit n ->
  hydrogen_bracket_at ("H" ++ d ++ "+" ++ n ++ "]<-" ++ rest)
                      ("+" ++ n ++ "]<-") rest.
Proof.
  intros Hd Hn. exists d, n. split; [exact Hd|]. split; [exact Hn|].
  split; [reflexivity|]. cbn [String.append]. do 2 f_equal.
  now rewrite append_assoc.
Qed.

Lemma hydrogen_bracket_match_occ (s m1 m2 rest : string) :
  Re.re_match hydrogen_bracket_pattern s = Some (m1, m2, rest) ->
  hydrogen_bracket_at s m2 rest /\ (m1 ++ m2)%string <> "".
Proof.
  unfold Re.re_match, hydrogen_bracket_pattern; cbn [fst snd]. intros E.
  one_char E h r1 Hh. apply accepts_lit in Hh. subst h.
  apply match_opt_inv in E as [(d & r2 & -> & Hd & E)|[E _]];
    rewrite match_nil in E; one_char E c r3 Hc; apply accepts_lit in Hc;
    subst c;
    (apply match_opt_inv in E as [(n & r4 & -> & Hn & E)|[E _]];
     one_char E b1 r5 Hb1; one_char E b2 r6 Hb2; one_char E b3 r7 Hb3;
     apply accepts_lit in Hb1, Hb2, Hb3; subst b1 b2 b3;
     rewrite match_nil in E; cbn [String.append] in E;
     injection E as <- <- <-; (split; [|discriminate])).
  - apply accepts_digit in Hd, Hn.
    apply (hydrogen_bracket_at_intro (String d "") (String n "") r7);
      auto using optional_one.
  - apply accepts_digit in Hd.
    apply (hydrogen_bracket_at_intro (String d "") "" r7);
      auto using optional_one, optional_none.
  - apply accepts_digit in Hn.
    apply (hydrogen_bracket_at_intro "" (String n "") r7);
      auto using optional_one, optional_none.
  - apply (hydrogen_bracket_at_intro "" "" r7); auto using optional_none.
Qed.

Lemma hydrogen_bracket_occ_match (s kept rest : string) :
  hydrogen_bracket_at s kept rest ->
  exists m1 m2,
    Re.re_match hydrogen_bracket_pattern s = Some (m1, m2, rest) /\ m2 = kept.
Proof.
  intros (d & n & Hd & Hn & -> & ->).
  exists ("H" ++ d)%string, ("+" ++ n ++ "]<-")%string. split; [|reflexivity].
  unfold Re.re_match, hydrogen_bracket_pattern; cbn [fst snd String.append].
  rewrite match_one_step by reflexivity. cbn [String.append].
  assert (Hc : forall acc : string,
    Re.match_items
      [Re.One (Re.Lit "+"); Re.Opt Re.Digit; Re.One (Re.Lit "]");
       Re.One (Re.Lit "<"); Re.One (Re.Lit "-")] ""
      (String "+" ((n ++ "]<-") ++ rest))
      (fun m2 r2 => Some (acc, m2, r2))
    = Some (acc, String "+" (n ++ "]<-"), rest)).
  { intros acc. rewrite match_one_step by reflexivity. cbn [String.append].
    destruct Hn as [->|(c & -> & Hc)].
    - reflexivity.
    - apply accepts_digit in Hc. apply match_opt_take; [exact Hc|].
      reflexivity. }
  destruct Hd as [->|(c & -> & Hd)].
  - rewrite match_opt_skip by reflexivity. rewrite match_nil. apply Hc.
  - apply accepts_digit in Hd. apply match_opt_take; [exact Hd|].
    rewrite match_nil. apply Hc.
Qed.

(** C7.  [clean_smiles] is two passes over the text, in this order: the
    first removes the hydrogen-count token that directly follows a
    dative-bond-open marker and an element symbol, the second removes the
    hydrogen-count token that directly precedes a charge and a
    dative-bond-close marker.  The passes determine the result, and a text
    in which neither pattern occurs is returned unchanged. *)
Theorem clean_smiles_spec (smiles : string) :
  (exists cleaned,
     rewritten metal_hydrogen_at smiles cleaned
     /\ rewritten hydrogen_bracket_at cleaned (clean_smiles smiles))
  /\ (forall cleaned out,
        rewritten metal_hydrogen_at smiles cleaned ->
        rewritten hydrogen_bracket_at cleaned out ->
        out = clean_smiles smiles)
  /\ (occurs_nowhere metal_hydrogen_at smiles ->
      occurs_nowhere hydrogen_bracket_at smiles ->
      clean_smiles smiles = smiles).
Proof.
  pose proof metal_hydrogen_match_occ as M1.
  pose proof metal_hydrogen_occ_match as O1.
  pose proof hydrogen_bracket_match_occ as M2.
  pose proof hydrogen_bracket_occ_match as O2.
  unfold clean_smiles. split; [|split].
  - eexists. split.
    + apply (sub_rewritten metal_hydrogen_pattern (fun g1 _ => g1)); assumption.
    + apply (sub_rewritten hydrogen_bracket_pattern (fun _ g2 => g2)); assumption.
  - intros cleaned out H1 H2.
    apply (rewritten_sub metal_hydrogen_pattern (fun g1 _ => g1)) in H1;
      [|assumption..].
    apply (rewritten_sub hydrogen_bracket_pattern (fun _ g2 => g2)) in H2;
      [|assumption..].
    now subst.
  - intros N1 N2.
    rewrite (sub_unchanged metal_hydrogen_pattern (fun g1 _ => g1)
               metal_hydrogen_at M1 O1 smiles N1).
    exact (sub_unchanged hydrogen_bracket_pattern (fun _ g2 => g2)
             hydrogen_bracket_at M2 O2 smiles N2).
Qed.

(* ================================================================= *)
(** ** [logk_lib/predictor.py]: the feature mask *)

Lemma FEATURE_MASK_value :
  FEATURE_MASK =
  [false; true; false; false; true; true; true; true; true; true;
   true; false; false; true; true; true; true; false; true; true;
   true; true; false; true; true; true; false; false; false; false;
   false; false; false; false; true; false; false; false; false; false;
   false; true; false; false; false; false; false; false; false; false].
Proof. reflexivity. Qed.

(** Every token of [_MASK_STR] evaluates: no token is dropped. *)
Lemma FEATURE_MASK_eval :
  map py_eval (Py.split _MASK_STR) = map Some FEATURE_MASK.
Proof. reflexivity. Qed.

Lemma true_indices_cons (b : bool) (mask : list bool) :
  true_indices (b :: mask)
  = (if b then [0] else []) ++ map S (true_indices mask).
Proof.
  unfold true_indices. cbn [length seq filter].
  change (nth 0 (b :: mask) false) with b.
  rewrite <- seq_shift.
  assert (E : forall l, filter (fun i => nth i (b :: mask) false) (map S l)
                        = map S (filter (fun i => nth i mask false) l)).
  { induction l as [|i l IH]; cbn [map filter]; [reflexivity|].
    change (nth (S i) (b :: mask) false) with (nth i mask false).
    rewrite IH. now destruct (nth i mask false). }
  rewrite E. now destruct b.
Qed.

Lemma select_true_indices {A} (d : A) (v : list A) (mask : list bool) :
  length mask = length v ->
  select v mask = map (fun i => nth i v d) (true_indices mask).
Proof.
  revert mask; induction v as [|a v IH]; intros [|b mask] Hlen;
    try discriminate; [reflexivity|].
  injection Hlen as Hlen. rewrite true_indices_cons, map_app, map_map.
  cbn [select nth]. rewrite (IH mask Hlen). now destruct b.
Qed.

Lemma select_length {A} (v : list A) (mask : list bool) :
  length mask = length v ->
  length (select v mask) = count_occ bool_dec mask true.
Proof.
  revert mask; induction v as [|a v IH]; intros [|b mask] Hlen;
    try discriminate; [reflexivity|].
  injection Hlen as Hlen. destruct b; cbn; now rewrite IH.
Qed.

Lemma true_indices_spec (mask : list bool) (i : nat) :
  In i (true_indices mask) <-> i < length mask /\ nth i mask false = true.
Proof.
  unfold true_indices. rewrite filter_In, in_seq. intuition lia.
Qed.

Lemma true_indices_sorted (mask : list bool) :
  StronglySorted lt (true_indices mask).
Proof.
  unfold true_indices. generalize 0 as k.
  induction (length mask) as [|n IH]; intros k; cbn [seq filter].
  - constructor.
  - destruct (nth k mask false); [|apply IH].
    constructor; [apply IH|].
    apply Forall_forall. intros j Hj.
    apply filter_In in Hj as [Hj _]. apply in_seq in Hj. lia.
Qed.

Section Assembler.
Context {float : Type} `{PyFloat float}.

Lemma comprehension_str (l : list float) :
  comprehension py_float (map str_float l) = Ok l.
Proof.
  induction l as [|f l IH]; [reflexivity|].
  cbn [map comprehension]. unfold py_float at 1. rewrite float_str.
  cbn [bind]. now rewrite IH.
Qed.

Lemma no_commas_str (l : list float) : no_commas (map str_float l).
Proof.
  induction l; constructor; [apply str_float_no_comma | assumption].
Qed.

Lemma no_commas_str64 (l : list float) : no_commas (map str_float64 l).
Proof.
  induction l; constructor; [apply str_float64_no_comma | assumption].
Qed.

(** With at least one scalar and one descriptor, the array the mask is
    applied to is the rounded scalars followed by the descriptor values. *)
Lemma all_features_of_text (features descs : list float) :
  features <> [] -> descs <> [] ->
  all_features_of features (descriptor_text descs)
  = Ok (map round4 features ++ descs).
Proof.
  intros Hf Hd. unfold all_features_of, descriptor_text.
  rewrite <- join_app.
  - rewrite <- map_app. rewrite split_join.
    + apply comprehension_str.
    + destruct features; [congruence | discriminate].
    + apply no_commas_str.
  - destruct features; [congruence | discriminate].
  - destruct descs; [congruence | discriminate].
Qed.

(** An empty scalar list makes the combined text start with the separator:
    the first piece is empty and [float('')] raises. *)
Lemma all_features_of_no_features (descriptors_str : string) :
  all_features_of [] descriptors_str = Raise ValueError.
Proof.
  unfold all_features_of, Py.split_sep. cbn [map Py.join String.concat].
  change ("" ++ ", " ++ descriptors_str)%string
    with (", " ++ descriptors_str)%string.
  rewrite split_at_sep.
  cbn [comprehension]. unfold py_float at 1. now rewrite float_empty.
Qed.

(** An empty descriptor text leaves an empty last piece. *)
Lemma all_features_of_no_descriptors (features : list float) :
  features <> [] ->
  all_features_of features (descriptor_text []) = Raise ValueError.
Proof.
  intros Hf. unfold all_features_of, descriptor_text.
  cbn [map Py.join String.concat]. rewrite append_nil_r.
  rewrite split_join_trailing.
  - rewrite comprehension_app, comprehension_str. cbn [bind comprehension].
    unfold py_float. now rewrite float_empty.
  - destruct features; [congruence | discriminate].
  - apply no_commas_str.
Qed.

(** The output line of [_combine_features_with], once the array is known. *)
Lemma combine_features_with_array (mask : list bool) (features : list float)
  (descriptors_str : string) (v : list float) :
  all_features_of features descriptors_str = Ok v ->
  _combine_features_with mask features descriptors_str
  = (masked <- np_bool_index v mask ;; Ok (Py.join ", " (map str_float64 masked))).
Proof. intros E. unfold _combine_features_with. now rewrite E. Qed.

Lemma np_bool_index_ok (mask : list bool) (v : list float) (d : float) :
  length mask = length v ->
  np_bool_index v mask = Ok (map (fun i => nth i v d) (true_indices mask)).
Proof.
  intros Hlen. unfold np_bool_index. rewrite Hlen, Nat.eqb_refl.
  now rewrite <- select_true_indices.
Qed.

Lemma masked_length (mask : list bool) (v : list float) (d : float) :
  length mask = length v ->
  length (map (fun i => nth i v d) (true_indices mask))
  = count_occ bool_dec mask true.
Proof.
  intros Hlen. rewrite <- (select_true_indices d v mask Hlen).
  now apply select_length.
Qed.

(** C5.  Feature assembly is a function of its inputs.  For a combined
    vector [v] and a mask of the same length, masking succeeds and gives
    exactly the entries of [v] at the positions where the mask is true, in
    ascending position order; their number is the number of true entries
    of the mask, and the returned line is the join of their texts. *)
Theorem masked_vector_spec (mask : list bool) (features : list float)
  (descriptors_str : string) (v : list float) (d : float) :
  all_features_of features descriptors_str = Ok v ->
  length mask = length v ->
  let masked := map (fun i => nth i v d) (true_indices mask) in
  np_bool_index v mask = Ok masked
  /\ _combine_features_with mask features descriptors_str
     = Ok (Py.join ", " (map str_float64 masked))
  /\ (forall i, In i (true_indices mask)
                <-> i < length v /\ nth i mask false = true)
  /\ StronglySorted lt (true_indices mask)
  /\ length masked = count_occ bool_dec mask true.
Proof.
  intros Hv Hlen masked.
  pose proof (np_bool_index_ok mask v d Hlen) as Hidx.
  split; [exact Hidx|]. split; [|split; [|split]].
  - rewrite (combine_features_with_array _ _ _ _ Hv), Hidx. reflexivity.
  - intros i. rewrite true_indices_spec, Hlen. reflexivity.
  - apply true_indices_sorted.
  - now apply masked_length.
Qed.

(** C1, as the code has it.  When the length of [FEATURE_MASK] differs
    from the length of the combined vector, [_combine_features] returns no
    vector at all, so nothing is truncated or padded; for a non-empty
    scalar list and a non-empty descriptor vector the exception is numpy's
    [IndexError] for a boolean index of the wrong length, which is not one
    of the package's [LogKPredictError] classes. *)
Theorem mask_mismatch_raises_IndexError (features descs : list float) :
  length (map round4 features ++ descs) <> length FEATURE_MASK ->
  (exists e, _combine_features features (descriptor_text descs) = Raise e)
  /\ (features <> [] -> descs <> [] ->
      _combine_features features (descriptor_text descs) = Raise IndexError
      /\ LogKPredictError IndexError = false).
Proof.
  intros Hlen.
  assert (Hidx : features <> [] -> descs <> [] ->
    _combine_features features (descriptor_text descs) = Raise IndexError).
  { intros Hf Hd. unfold _combine_features.
    rewrite (combine_features_with_array _ _ _ _ (all_features_of_text _ _ Hf Hd)).
    unfold np_bool_index.
    destruct (Nat.eqb_spec (length FEATURE_MASK)
                (length (map round4 features ++ descs))) as [E|_];
      [congruence | reflexivity]. }
  split.
  - destruct features as [|f features].
    + exists ValueError. unfold _combine_features, _combine_features_with.
      now rewrite all_features_of_no_features.
    + destruct descs as [|x descs].
      * exists ValueError. unfold _combine_features, _combine_features_with.
        now rewrite all_features_of_no_descriptors.
      * exists IndexError. now apply Hidx.
  - intros Hf Hd. split; [now apply Hidx | reflexivity].
Qed.

Variable rdkit : RDKit float.

Lemma CalcDescriptors_length (names : list string) (mol : Mol) :
  length (CalcDescriptors rdkit names mol) = length names.
Proof. unfold CalcDescriptors. apply length_map. Qed.

Lemma calculate_descriptors_ok (mol : Mol) :
  calculate_descriptors rdkit mol
  = Ok (descriptor_text (CalcDescriptors rdkit SELECTED_DESCRIPTORS mol)).
Proof. reflexivity. Qed.

Lemma process_mol_block_ok (mol_block : string) (p : Mol * string * string) :
  process_mol_block rdkit mol_block = Ok p ->
  exists mol0,
    MolFromMolBlock rdkit mol_block = Some mol0
    /\ let m := SanitizeMol rdkit (reclassify DEFAULT_DONOR_ATOMS mol0) in
       p = (m, descriptor_text (CalcDescriptors rdkit SELECTED_DESCRIPTORS m),
            clean_smiles (MolToSmiles rdkit m)).
Proof.
  unfold process_mol_block.
  destruct (MolFromMolBlock rdkit mol_block) as [mol0|]; [|discriminate].
  unfold set_dative_bonds, calculate_descriptors, _sanitize_molecule, reclassify.
  cbn [wrap_molecular bind]. intros E. exists mol0.
  split; [reflexivity|]. cbv zeta. congruence.
Qed.


(** C10.  [FEATURE_MASK] has 50 entries, 21 of them true.  With 10 scalar
    features and the descriptor text of any molecule, [_combine_features]
    returns a line of exactly 21 values, and [_create_input_files] writes
    that line under a header that names only 10 features.  Every call of
    [predict] with 10 scalar features and a block that RDKit parses hands
    the prediction command a features file of that form: the header, and
    one line of the 21 values that the mask selects from the rounded
    scalars followed by the descriptors of the normalized molecule. *)
Theorem masked_vector_has_21_values :
  length FEATURE_MASK = 50
  /\ count_occ bool_dec FEATURE_MASK true = 21
  /\ length (Py.split_sep ", " feature_header) = 10
  /\ (forall (mol : Mol) (features : list float) (descriptors_str smiles : string),
       length features = 10 ->
       calculate_descriptors rdkit mol = Ok descriptors_str ->
       exists masked : list float,
         length masked = 21
         /\ _combine_features features descriptors_str
            = Ok (Py.join ", " (map str_float64 masked))
         /\ Py.split_sep ", " (Py.join ", " (map str_float64 masked))
            = map str_float64 masked
         /\ snd (_create_input_files smiles (Py.join ", " (map str_float64 masked)))
            = (feature_header ++ newline
               ++ Py.join ", " (map str_float64 masked) ++ newline)%string)
  /\ (forall (features : list float) (mol_block : string) (mol0 : Mol),
       length features = 10 ->
       MolFromMolBlock rdkit mol_block = Some mol0 ->
       let mol := SanitizeMol rdkit (reclassify DEFAULT_DONOR_ATOMS mol0) in
       let smiles := clean_smiles (MolToSmiles rdkit mol) in
       let masked :=
         select (map round4 features
                 ++ CalcDescriptors rdkit SELECTED_DESCRIPTORS mol) FEATURE_MASK in
       let line := Py.join ", " (map str_float64 masked) in
       length masked = 21
       /\ Py.split_sep ", " line = map str_float64 masked
       /\ forall chemprop : Chemprop float,
            predict rdkit chemprop features mol_block
            = (predictions_csv <-
                 _run_chemprop_prediction chemprop
                   ("smiles" ++ newline ++ smiles ++ newline)
                   (feature_header ++ newline ++ line ++ newline) ;;
               _extract_prediction chemprop predictions_csv)).
Proof.
  split; [reflexivity|]. split; [reflexivity|]. split; [reflexivity|].
  assert (Hsplit : forall masked : list float, length masked = 21 ->
            Py.split_sep ", " (Py.join ", " (map str_float64 masked))
            = map str_float64 masked).
  { intros masked Hn. apply split_join; [|apply no_commas_str64].
    intros E. apply (f_equal (@length _)) in E.
    rewrite length_map, Hn in E. discriminate E. }
  assert (Hmask : forall (features descs : list float),
            length features = 10 -> length descs = 40 ->
            length (select (map round4 features ++ descs) FEATURE_MASK) = 21
            /\ _combine_features features (descriptor_text descs)
               = Ok (Py.join ", "
                       (map str_float64
                          (select (map round4 features ++ descs) FEATURE_MASK)))).
  { intros features descs Hf Hdl.
    assert (Hv : all_features_of features (descriptor_text descs)
                 = Ok (map round4 features ++ descs)).
    { apply all_features_of_text.
      - destruct features; [discriminate Hf | discriminate].
      - destruct descs; [discriminate Hdl | discriminate]. }
    assert (Hlen : length FEATURE_MASK = length (map round4 features ++ descs)).
    { rewrite length_app, length_map, Hf, Hdl. reflexivity. }
    destruct features as [|d0 features]; [discriminate Hf|].
    pose proof (masked_length FEATURE_MASK _ d0 Hlen) as Hn.
    change (count_occ bool_dec FEATURE_MASK true) with 21 in Hn.
    rewrite <- (select_true_indices d0 _ _ Hlen) in Hn.
    split; [exact Hn|].
    unfold _combine_features.
    rewrite (combine_features_with_array _ _ _ _ Hv).
    rewrite (np_bool_index_ok FEATURE_MASK _ d0 Hlen).
    now rewrite <- (select_true_indices d0 _ _ Hlen). }
  split.
  - intros mol features descriptors_str smiles Hf Hd.
    rewrite calculate_descriptors_ok in Hd.
    assert (Hd' : descriptors_str
                  = descriptor_text (CalcDescriptors rdkit SELECTED_DESCRIPTORS mol))
      by congruence.
    subst descriptors_str.
    destruct (Hmask features (CalcDescriptors rdkit SELECTED_DESCRIPTORS mol) Hf
                (CalcDescriptors_length _ _)) as [Hn Hc].
    eexists. split; [exact Hn|]. split; [exact Hc|].
    split; [now apply Hsplit | reflexivity].
  - intros features mol_block mol0 Hf Hparse mol smiles masked line.
    destruct (Hmask features (CalcDescriptors rdkit SELECTED_DESCRIPTORS mol) Hf
                (CalcDescriptors_length _ _)) as [Hn Hc].
    split; [exact Hn|]. split; [now apply Hsplit|].
    intros chemprop. unfold predict, process_mol_block. rewrite Hparse.
    unfold set_dative_bonds, calculate_descriptors, _sanitize_molecule.
    cbn [wrap_molecular bind fst snd]. fold (reclassify DEFAULT_DONOR_ATOMS mol0).
    fold mol. rewrite Hc. reflexivity.
Qed.

End Assembler.

(* ================================================================= *)
(** ** [logk_lib/predictor.py]: reading the input record *)

Lemma mol_lines_of_unterminated (lines : list string) :
  ~ has_terminator lines -> mol_lines_of lines = lines.
Proof.
  unfold has_terminator. induction lines as [|l lines IH]; intros Hn;
    [reflexivity|].
  cbn [mol_lines_of]. destruct (String.eqb_spec (Py.strip l) "$$$$") as [E|_].
  - exfalso. apply Hn. now constructor.
  - f_equal. apply IH. intros Hx. apply Hn. now constructor 2.
Qed.

Section Reader.
Context {float : Type} `{PyFloat float}.

Lemma comprehension_float_ok (l : list string) (fs : list float) :
  comprehension py_float l = Ok fs <-> map float_of_string l = map Some fs.
Proof.
  revert fs; induction l as [|x l IH]; intros fs; cbn [comprehension map].
  - split; [intros [= <-]; reflexivity|]. now destruct fs.
  - unfold py_float at 1. destruct (float_of_string x) as [f|]; cbn [bind].
    + destruct (comprehension py_float l) as [gs|e]; cbn [bind].
      * split.
        -- intros [= <-]. cbn [map]. f_equal. now apply IH.
        -- destruct fs as [|g fs]; [discriminate|]. cbn [map].
           intros [= -> E]. apply IH in E. now injection E as <-.
      * split; [discriminate|]. destruct fs as [|g fs]; [discriminate|].
        cbn [map]. intros [= -> E]. apply IH in E. discriminate E.
    + split; [discriminate|]. destruct fs; discriminate.
Qed.

Lemma comprehension_float_raise (l : list string) (e : exn) :
  comprehension py_float l = Raise e
  <-> e = ValueError /\ Exists (fun x => float_of_string x = None) l.
Proof.
  induction l as [|x l IH]; cbn [comprehension].
  - split; [discriminate|]. intros [_ Hx]. inversion Hx.
  - unfold py_float at 1. destruct (float_of_string x) as [f|] eqn:Hx;
      cbn [bind].
    + destruct (comprehension py_float l) as [gs|e']; cbn [bind].
      * split; [discriminate|]. intros [He Hex].
        inversion Hex as [? ? Hn|? ? Hl]; subst; [congruence|].
        destruct IH as [_ IH]. discriminate IH. now split.
      * split.
        -- intros [= <-]. destruct IH as [IH _].
           destruct (IH eq_refl) as [-> Hl]. split; [reflexivity|].
           now constructor 2.
        -- intros [-> Hex]. inversion Hex as [? ? Hn|? ? Hl]; subst;
             [congruence|].
           destruct IH as [_ IH]. now rewrite IH.
    + split; [intros [= <-]|intros [-> _]; reflexivity].
      split; [reflexivity|]. now constructor.
Qed.

Lemma parse_features_unfold (feature_line : string) :
  _parse_features feature_line
  = match comprehension py_float (skipn 2 (Py.split feature_line)) with
    | Raise ValueError | Raise IndexError => Raise InvalidInputError
    | r => r
    end.
Proof. unfold _parse_features. now rewrite split_strip. Qed.

Lemma parse_features_raises (feature_line : string) (e : exn) :
  _parse_features feature_line = Raise e -> e = InvalidInputError.
Proof.
  rewrite parse_features_unfold.
  destruct (comprehension py_float (skipn 2 (Py.split feature_line)))
    as [gs|e'] eqn:Hc; [discriminate|].
  apply comprehension_float_raise in Hc as [-> _]. now intros [= <-].
Qed.

(** C9.  [_parse_features] returns exactly the floats of the
    whitespace-separated tokens of the line, the first two dropped.  A
    line of two tokens or fewer gives the empty list without raising, and
    [InvalidInputError] is raised exactly when a kept token is not a float
    literal; no other exception leaves the function. *)
Theorem parse_features_spec (feature_line : string) :
  exists tokens : list string,
    tokens_of feature_line tokens
    /\ (forall ts, tokens_of feature_line ts -> ts = tokens)
    /\ (forall fs, _parse_features feature_line = Ok fs
                   <-> map float_of_string (skipn 2 tokens) = map Some fs)
    /\ (length tokens <= 2 -> _parse_features feature_line = Ok [])
    /\ (_parse_features feature_line = Raise InvalidInputError
        <-> Exists (fun x => float_of_string x = None) (skipn 2 tokens))
    /\ (forall e, _parse_features feature_line = Raise e -> e = InvalidInputError).
Proof.
  exists (Py.split feature_line).
  split; [now apply tokens_of_split|].
  split; [intros ts Hts; now apply tokens_of_split|].
  rewrite parse_features_unfold.
  set (kept := skipn 2 (Py.split feature_line)).
  pose proof (comprehension_float_ok kept) as Hok.
  pose proof (comprehension_float_raise kept) as Hraise.
  destruct (comprehension py_float kept) as [gs|e] eqn:Hc.
  - split; [intros fs; rewrite <- Hok; reflexivity|].
    split.
    { intros Hlen. f_equal. pose proof (proj1 (Hok gs) eq_refl) as Hm.
      assert (Hk : kept = []).
      { unfold kept. apply skipn_all2. exact Hlen. }
      rewrite Hk in Hm. now destruct gs. }
    split; [|discriminate].
    split; [discriminate|]. intros Hex.
    assert (Hv : Ok gs = Raise ValueError) by (apply Hraise; now split).
    discriminate Hv.
  - destruct (proj1 (Hraise e) eq_refl) as [-> Hex].
    split.
    { intros fs. split; [discriminate|]. intros Hm.
      apply Hok in Hm. discriminate Hm. }
    split.
    { intros Hlen. exfalso.
      assert (Hk : kept = []) by (unfold kept; apply skipn_all2; exact Hlen).
      rewrite Hk in Hex. inversion Hex. }
    split; [split; [intros _; exact Hex | reflexivity]|].
    now intros e [= <-].
Qed.

Variable rdkit : RDKit float.
Variable chemprop : Chemprop float.

(** C2, as the code has it.  [predict_from_file] raises
    [InvalidInputError] for a missing file, for a record of fewer than 3
    lines, for a feature line with a token that is not a float, and for a
    record whose [$$$$] line directly follows the feature line (an empty
    structural block).  A record of 3 lines or more that has no [$$$$]
    line at all is not refused: every line after the feature line is
    joined and handed to [predict], whose result is returned as it is. *)
Theorem predict_from_file_invalid_input
  (files : string -> option (list string)) (input_file : string) :
  (files input_file = None ->
   predict_from_file rdkit chemprop files input_file = Raise InvalidInputError)
  /\ forall lines, files input_file = Some lines ->
     (length lines < 3 ->
      predict_from_file rdkit chemprop files input_file = Raise InvalidInputError)
     /\ (3 <= length lines ->
         (forall fs, _parse_features (nth 1 lines "") <> Ok fs) ->
         predict_from_file rdkit chemprop files input_file = Raise InvalidInputError)
     /\ (3 <= length lines ->
         Py.strip (nth 2 lines "") = "$$$$" ->
         predict_from_file rdkit chemprop files input_file = Raise InvalidInputError)
     /\ (3 <= length lines ->
         ~ has_terminator (skipn 2 lines) ->
         forall fs, _parse_features (nth 1 lines "") = Ok fs ->
         _extract_mol_block (skipn 2 lines) = Ok (Py.join "" (skipn 2 lines))
         /\ predict_from_file rdkit chemprop files input_file
            = predict rdkit chemprop fs (Py.join "" (skipn 2 lines))).
Proof.
  unfold predict_from_file. split; [intros ->; reflexivity|].
  intros lines ->. split; [|split; [|split]].
  - intros Hlt. apply Nat.ltb_lt in Hlt. now rewrite Hlt.
  - intros Hge Hbad. apply Nat.ltb_ge in Hge. rewrite Hge.
    destruct (_parse_features (nth 1 lines "")) as [fs|e] eqn:Hp.
    + now destruct (Hbad fs).
    + cbn [bind]. f_equal. now apply (parse_features_raises _ _ Hp).
  - intros Hge Hterm. pose proof Hge as Hge'. apply Nat.ltb_ge in Hge'.
    rewrite Hge'.
    assert (Hm : _extract_mol_block (skipn 2 lines) = Raise InvalidInputError).
    { destruct lines as [|l0 [|l1 [|l2 lines]]]; cbn in Hge; try lia.
      cbn [skipn nth] in *. unfold _extract_mol_block. cbn [mol_lines_of].
      now rewrite Hterm. }
    rewrite Hm.
    destruct (_parse_features (nth 1 lines "")) as [fs|e] eqn:Hp;
      [reflexivity|].
    cbn [bind]. f_equal. now apply (parse_features_raises _ _ Hp).
  - intros Hge Hterm fs Hp. pose proof Hge as Hge'. apply Nat.ltb_ge in Hge'.
    rewrite Hge', Hp. cbn [bind].
    assert (Hm : _extract_mol_block (skipn 2 lines) = Ok (Py.join "" (skipn 2 lines))).
    { unfold _extract_mol_block. rewrite mol_lines_of_unterminated by assumption.
      destruct lines as [|l0 [|l1 [|l2 lines]]]; cbn in Hge; try lia.
      reflexivity. }
    rewrite Hm. split; reflexivity.
Qed.

Lemma parse_features_length (feature_line : string) (fs : list float) :
  _parse_features feature_line = Ok fs ->
  length fs = length (Py.split feature_line) - 2.
Proof.
  rewrite parse_features_unfold.
  destruct (comprehension py_float (skipn 2 (Py.split feature_line)))
    as [gs|e] eqn:Hc.
  - intros [= <-]. apply comprehension_length in Hc.
    now rewrite Hc, length_skipn.
  - destruct e; discriminate.
Qed.

(** C4.  The descriptor vector of any molecule has one value for each of
    the 40 names of [SELECTED_DESCRIPTORS], in their order.  For a feature
    line of 12 tokens that parses, 10 scalars are kept, and the array that
    [_combine_features] builds is the 10 rounded scalars followed by the
    40 descriptor values: 50 entries. *)
Theorem combined_vector_has_50_entries (mol : Mol) (feature_line : string)
  (tokens : list string) (fs : list float) :
  tokens_of feature_line tokens ->
  length tokens = 12 ->
  _parse_features feature_line = Ok fs ->
  let descs := CalcDescriptors rdkit SELECTED_DESCRIPTORS mol in
  descs = map (fun nm => Descriptor rdkit nm mol) SELECTED_DESCRIPTORS
  /\ length descs = 40
  /\ calculate_descriptors rdkit mol = Ok (descriptor_text descs)
  /\ length fs = 10
  /\ all_features_of fs (descriptor_text descs) = Ok (map round4 fs ++ descs)
  /\ length (map round4 fs ++ descs) = 50.
Proof.
  intros Htok Hlen Hp descs.
  apply tokens_of_split in Htok. subst tokens.
  apply parse_features_length in Hp. rewrite Hlen in Hp. cbn in Hp.
  assert (Hd : length descs = 40) by apply CalcDescriptors_length.
  split; [reflexivity|]. split; [exact Hd|]. split; [reflexivity|].
  split; [exact Hp|]. split.
  - apply all_features_of_text.
    + destruct fs; [discriminate Hp | discriminate].
    + destruct descs; [discriminate Hd | discriminate].
  - now rewrite length_app, length_map, Hp, Hd.
Qed.

End Reader.

(* ================================================================= *)
(** ** The integral floats satisfy the float interface *)

Module IntegralFloatFacts.
Import IntegralFloat.

Lemma strip_dot_zero_append (p : string) :
  strip_dot_zero (p ++ ".0") = Some p.
Proof.
  induction p as [|c p IH]; [reflexivity|].
  cbn [String.append strip_dot_zero].
  replace (String c (p ++ ".0") =? ".0") with false.
  - now rewrite IH.
  - symmetry. apply String.eqb_neq. intros E.
    apply (f_equal String.length) in E. cbn in E.
    rewrite length_append in E. cbn in E. lia.
Qed.

Lemma to_int_not_nil (z : Z) :
  Z.to_int z <> Pos Nil /\ Z.to_int z <> Neg Nil.
Proof.
  destruct z as [|q|q]; cbn; split; try discriminate;
    intros [= E]; now apply (DecimalPos.Unsigned.to_uint_nonnil q).
Qed.

Lemma int_literal_to_int (z : Z) :
  int_literal (NilZero.string_of_int (Z.to_int z)) = Some z.
Proof.
  unfold int_literal. destruct (to_int_not_nil z) as [Hp Hn].
  rewrite NilZero.isi by assumption. cbn. now rewrite DecimalZ.of_to.
Qed.

Lemma of_to_string (f : float) : of_string (to_string f) = Some f.
Proof.
  unfold of_string, to_string. rewrite strip_dot_zero_append.
  apply int_literal_to_int.
Qed.

Lemma uint_no_comma (d : uint) :
  Py.mem_char "," (NilEmpty.string_of_uint d) = false.
Proof. induction d; cbn; auto. Qed.

Lemma to_string_no_comma (f : float) : Py.mem_char "," (to_string f) = false.
Proof.
  unfold to_string. rewrite mem_char_append.
  replace (Py.mem_char "," ".0") with false by reflexivity.
  rewrite orb_false_r.
  destruct (Z.to_int f) as [d|d]; cbn [NilZero.string_of_int].
  - destruct d; try apply uint_no_comma; reflexivity.
  - cbn [Py.mem_char]. replace (Ascii.eqb "," "-") with false by reflexivity.
    destruct d; try apply uint_no_comma; reflexivity.
Qed.

End IntegralFloatFacts.

#[export] Instance integral_float : PyFloat IntegralFloat.float := {|
  round4 := IntegralFloat.round;
  str_float := IntegralFloat.to_string;
  str_float64 := IntegralFloat.to_string;
  float_of_string := IntegralFloat.of_string;
  float_str := IntegralFloatFacts.of_to_string;
  float_empty := eq_refl;
  str_float_no_comma := IntegralFloatFacts.to_string_no_comma;
  str_float64_no_comma := IntegralFloatFacts.to_string_no_comma
|}.

(* ================================================================= *)
(** ** The doubles satisfy the float interface *)

Module Binary64Facts.
Import SpecFloat Binary64.

Lemma eqb_eq (x y : spec_float) : eqb x y = true -> x = y.
Proof.
  destruct x as [s|s| |s m e], y as [t|t| |t n f]; cbn [eqb];
    try discriminate; try reflexivity.
  - intros E. apply Bool.eqb_prop in E. now subst.
  - intros E. apply Bool.eqb_prop in E. now subst.
  - intros E. apply andb_prop in E as [E Ee]. apply andb_prop in E as [Es Em].
    apply Bool.eqb_prop in Es. apply Pos.eqb_eq in Em. apply Z.eqb_eq in Ee.
    now subst.
Qed.

(** A float of the interface is its double. *)
Lemma float_eq (f g : float) : value f = value g -> f = g.
Proof.
  destruct f as [x Hx], g as [y Hy]. cbn [value proj1_sig]. intros E.
  subst y. f_equal. apply Eqdep_dec.UIP_dec. apply Bool.bool_dec.
Qed.

(** The rule of [nearest_even]: it gives the nearest integer, the even
    one of two, and nothing else does. *)
Lemma nearest_even_spec (n d : Z) :
  (0 < d)%Z ->
  nearest_to_even n d (nearest_even n d)
  /\ forall q, nearest_to_even n d q -> q = nearest_even n d.
Proof.
  intros Hd. unfold nearest_to_even, nearest_even.
  pose proof (Z_div_mod n d ltac:(lia)) as Hdm.
  destruct (Z.div_eucl n d) as [a r]. destruct Hdm as [En Hr].
  assert (Hcases : forall q,
            (2 * Z.abs (n - q * d) <= d)%Z ->
            (q = a /\ 2 * r <= d)%Z \/ (q = a + 1 /\ d <= 2 * r)%Z).
  { intros q Hq.
    assert (q - a = 0 \/ q - a = 1)%Z as [E|E] by nia.
    - left. split; [lia|]. replace q with a in Hq by lia. nia.
    - right. split; [lia|]. replace q with (a + 1)%Z in Hq by lia. nia. }
  destruct (Z.compare_spec (2 * r) d) as [E|E|E].
  - destruct (Z.even a) eqn:Ha.
    + split.
      * split; [exact Hd|]. split; [nia|]. intros _. exact Ha.
      * intros q (_ & Hq & Hev). destruct (Hcases q Hq) as [[-> _]|[-> _]];
          [reflexivity|].
        assert (Hx : Z.even (a + 1) = true) by (apply Hev; nia).
        rewrite Z.even_add, Ha in Hx. discriminate Hx.
    + split.
      * split; [exact Hd|]. split; [nia|]. intros _.
        now rewrite Z.even_add, Ha.
      * intros q (_ & Hq & Hev). destruct (Hcases q Hq) as [[-> _]|[-> _]];
          [|reflexivity].
        assert (Hx : Z.even a = true) by (apply Hev; nia).
        rewrite Ha in Hx. discriminate Hx.
  - split.
    + split; [exact Hd|]. split; [nia|]. intros Hx. nia.
    + intros q (_ & Hq & _). destruct (Hcases q Hq) as [[-> _]|[-> Hx]];
        [reflexivity | lia].
  - split.
    + split; [exact Hd|]. split; [nia|]. intros Hx. nia.
    + intros q (_ & Hq & _). destruct (Hcases q Hq) as [[-> Hx]|[-> _]];
        [lia | reflexivity].
Qed.

(** The denominator of [fraction] is positive, and the fraction is
    [m * 2^e]. *)
Lemma fraction_spec (m : positive) (e : Z) :
  (0 < snd (fraction m e))%Z
  /\ (fst (fraction m e) * 2 ^ Z.max 0 (- e)
      = Zpos m * 2 ^ Z.max 0 e * snd (fraction m e))%Z.
Proof.
  unfold fraction. destruct (Z.leb_spec 0 e) as [He|He]; cbn [fst snd].
  - rewrite (Z.max_l 0 (- e)), (Z.max_r 0 e) by lia. split; [lia|].
    change (2 ^ 0)%Z with 1%Z. lia.
  - rewrite (Z.max_r 0 (- e)), (Z.max_l 0 e) by lia.
    split; [apply Z.pow_pos_nonneg; lia|]. change (2 ^ 0)%Z with 1%Z. lia.
Qed.

(** Rounding a float of the interface gives a float of the interface. *)
Lemma round4_ok (x : spec_float) : ok x = true -> ok (round4 x) = true.
Proof.
  unfold ok. cbv zeta. generalize (round4 x) as r. intros r H.
  apply andb_prop in H as [_ H]. apply andb_prop in H as [H Hidem].
  apply andb_prop in H as [Hv Hr]. rewrite (eqb_eq _ _ Hidem).
  now rewrite Hv, Hr, Hidem.
Qed.

Lemma read_repr (f : float) : of_string (to_string f) = Some f.
Proof.
  destruct f as [x Hx]. unfold of_string, to_string. cbn [value proj1_sig].
  pose proof Hx as H. unfold ok in H. apply andb_prop in H as [H _].
  apply andb_prop in H as [_ H]. unfold reads_back in H.
  destruct (parse (repr x)) as [y|]; [|discriminate H].
  apply eqb_eq in H. subst y.
  destruct (Bool.bool_dec (ok x) true) as [checked|no]; [|contradiction].
  apply (f_equal Some).
  apply (float_eq (exist _ x checked) (exist _ x Hx)). reflexivity.
Qed.

(** *** No comma in the text of a double *)

Lemma digit_char_no_comma (n : Z) : Ascii.eqb "," (digit_char n) = false.
Proof.
  destruct n as [|p|p]; [reflexivity| |reflexivity].
  do 4 (try (destruct p as [p|p|]; try reflexivity)).
Qed.

Lemma digits_of_no_comma (fuel : nat) (n : Z) (acc : string) :
  Py.mem_char "," acc = false -> Py.mem_char "," (digits_of fuel n acc) = false.
Proof.
  revert n acc. induction fuel as [|fuel IH]; intros n acc Hacc; [exact Hacc|].
  cbn [digits_of].
  assert (H : Py.mem_char "," (String (digit_char (n mod 10)) acc) = false)
    by (cbn [Py.mem_char]; now rewrite digit_char_no_comma, Hacc).
  destruct (n <? 10)%Z; [exact H | now apply IH].
Qed.

Lemma decimal_no_comma (n : Z) : Py.mem_char "," (decimal n) = false.
Proof. now apply digits_of_no_comma. Qed.

Lemma zeros_no_comma (n : nat) : Py.mem_char "," (zeros n) = false.
Proof. induction n as [|n IH]; [reflexivity | exact IH]. Qed.

Lemma take_no_comma (n : nat) (s : string) :
  Py.mem_char "," s = false -> Py.mem_char "," (take n s) = false.
Proof.
  revert s. induction n as [|n IH]; intros [|c s]; try reflexivity.
  cbn [Py.mem_char take]. intros H. apply orb_false_elim in H as [Hc Hs].
  now rewrite Hc, (IH s Hs).
Qed.

Lemma drop_no_comma (n : nat) (s : string) :
  Py.mem_char "," s = false -> Py.mem_char "," (drop n s) = false.
Proof.
  revert s. induction n as [|n IH]; intros [|c s]; try (intros H; exact H).
  cbn [Py.mem_char drop]. intros H. apply orb_false_elim in H as [_ Hs].
  now apply IH.
Qed.

Lemma format_repr_no_comma (ds : string) (decpt : Z) :
  Py.mem_char "," ds = false -> Py.mem_char "," (format_repr ds decpt) = false.
Proof.
  intros Hds. unfold format_repr.
  destruct ((decpt <=? -4)%Z || (16 <? decpt)%Z).
  - cbv zeta. rewrite !mem_char_append, decimal_no_comma.
    assert (Hm : Py.mem_char ","
                   match ds with
                   | String c EmptyString => String c ""
                   | String c r => String c (String "." r)
                   | EmptyString => ""
                   end = false).
    { destruct ds as [|c [|c' r]]; [reflexivity | exact Hds |].
      cbn [Py.mem_char] in *. apply orb_false_elim in Hds as [Hc Hr].
      now rewrite Hc, Hr. }
    rewrite Hm. destruct (decpt - 1 <? 0)%Z, (Z.abs (decpt - 1) <? 10)%Z;
      reflexivity.
  - destruct (decpt <=? 0)%Z.
    + now rewrite !mem_char_append, zeros_no_comma, Hds.
    + cbv zeta. destruct (Z.of_nat (String.length ds) <=? decpt)%Z.
      * now rewrite !mem_char_append, zeros_no_comma, Hds.
      * now rewrite !mem_char_append, take_no_comma, drop_no_comma.
Qed.

Lemma repr_no_comma (x : spec_float) : Py.mem_char "," (repr x) = false.
Proof.
  destruct x as [[|]|[|]| |s m e]; try reflexivity.
  unfold repr. destruct (fraction m e) as [n d].
  cbv zeta. rewrite mem_char_append.
  assert (Hs : Py.mem_char "," (if s then "-" else "") = false)
    by (destruct s; reflexivity).
  rewrite Hs. cbn [orb].
  destruct (shortest_from 17 (S754_finite false m e) n d (decimal_point n d) 1)
    as [[dg k]|]; [|reflexivity].
  destruct (strip_zeros 20 dg k) as [dg' k'].
  apply format_repr_no_comma, decimal_no_comma.
Qed.

Lemma repr_of_float_no_comma (f : float) : Py.mem_char "," (to_string f) = false.
Proof. apply repr_no_comma. Qed.

End Binary64Facts.

#[export] Instance binary64_float : PyFloat Binary64.float := {|
  round4 := fun f =>
    exist _ (Binary64.round4 (Binary64.value f))
            (Binary64Facts.round4_ok _ (proj2_sig f));
  str_float := Binary64.to_string;
  str_float64 := Binary64.to_string;
  float_of_string := Binary64.of_string;
  float_str := Binary64Facts.read_repr;
  float_empty := eq_refl;
  str_float_no_comma := Binary64Facts.repr_of_float_no_comma;
  str_float64_no_comma := Binary64Facts.repr_of_float_no_comma
|}.

(* ================================================================= *)
(** ** Rounding the scalar features *)

(** C8.  In the array that [_combine_features] builds, every scalar
    feature has gone through [round(f, 4)] and the descriptor values
    follow as they were read.  On the doubles, [round(f, 4)] is one rule:
    the exact value of [f], times [10^4], is taken to the nearest integer
    [q], to the even one of two that are equally near, and the result is
    the double nearest to [q / 10^4]; zeros, infinities and not-a-number
    are left as they are.  By that rule 1.23456 becomes 1.2346, and a
    descriptor value such as 0.123456789 is not rounded. *)
Theorem scalar_features_rounded_to_4_places :
  (forall (float : Type) (PF : PyFloat float) (features descs : list float),
     features <> [] -> descs <> [] ->
     all_features_of features (descriptor_text descs)
     = Ok (map round4 features ++ descs))
  /\ (forall f : Binary64.float,
        Binary64.value (round4 f) = Binary64.round4 (Binary64.value f))
  /\ (forall features descs : list Binary64.float,
        features <> [] -> descs <> [] ->
        exists all_features,
          all_features_of features (descriptor_text descs) = Ok all_features
          /\ map Binary64.value all_features
             = map Binary64.round4 (map Binary64.value features)
               ++ map Binary64.value descs)
  /\ (forall (s : bool) (m : positive) (e : Z),
        let n := fst (Binary64.fraction m e) in
        let d := snd (Binary64.fraction m e) in
        (n * 2 ^ Z.max 0 (- e) = Zpos m * 2 ^ Z.max 0 e * d)%Z
        /\ exists q : Z,
             Binary64.nearest_to_even (n * 10 ^ 4) d q
             /\ (forall q', Binary64.nearest_to_even (n * 10 ^ 4) d q' -> q' = q)
             /\ Binary64.round4 (SpecFloat.S754_finite s m e)
                = Binary64.of_decimal s q (-4))
  /\ (forall x : SpecFloat.spec_float,
        (forall s m e, x <> SpecFloat.S754_finite s m e) ->
        Binary64.round4 x = x)
  /\ (let x := SpecFloat.S754_finite false 5559963955966520 (-52) in
      let y := SpecFloat.S754_finite false 5560144099951614 (-52) in
      Binary64.parse "1.23456" = Some x
      /\ Binary64.parse "1.2346" = Some y
      /\ Binary64.round4 x = y
      /\ Binary64.repr y = "1.2346")
  /\ match Binary64.of_string "1.23456", Binary64.of_string "0.123456789" with
     | Some f, Some d =>
         _combine_features_with [true; true] [f] (descriptor_text [d])
     | _, _ => Raise ValueError
     end = Ok "1.2346, 0.123456789".
Proof.
  split; [intros float PF features descs; apply all_features_of_text|].
  split; [reflexivity|].
  split.
  { intros features descs Hf Hd. exists (map round4 features ++ descs).
    split; [now apply all_features_of_text|].
    rewrite map_app, !map_map. reflexivity. }
  split.
  { intros s m e n d.
    destruct (Binary64Facts.fraction_spec m e) as [Hd Hv].
    split; [exact Hv|].
    destruct (Binary64Facts.nearest_even_spec (n * 10 ^ 4) d Hd) as [Hq Hu].
    exists (Binary64.nearest_even (n * 10 ^ 4) d).
    split; [exact Hq|]. split; [exact Hu|].
    unfold Binary64.round4, n, d.
    destruct (Binary64.fraction m e) as [n' d']. reflexivity. }
  split.
  { intros [s|s| |s m e] Hx; try reflexivity. now destruct (Hx s m e). }
  split; [cbv zeta; repeat split; vm_compute; reflexivity|].
  vm_compute. reflexivity.
Qed.

(** Two values that lie half way between two decimals of 4 places go to
    the even one, not away from zero. *)
Example round4_half_to_even :
  option_map (fun x => Binary64.repr (Binary64.round4 x)) (Binary64.parse "0.03125")
  = Some "0.0312"
  /\ option_map (fun x => Binary64.repr (Binary64.round4 x)) (Binary64.parse "0.09375")
     = Some "0.0938"
  /\ option_map (fun x => Binary64.repr (Binary64.round4 x)) (Binary64.parse "-0.00001")
     = Some "-0.0".
Proof. repeat split; vm_compute; reflexivity. Qed.

(* ================================================================= *)
(** ** The claims on concrete inputs *)

(** The table over the atomic numbers 1 to 103. *)
Example non_metals_1_to_103 :
  filter (fun n => negb (is_transition_metal (mkAtom 0 (Z.of_nat n)))) (seq 1 103)
  = [1; 5; 6; 7; 8; 9; 14; 15; 16; 17; 35].
Proof. reflexivity. Qed.

Example clean_smiles_copper :
  clean_smiles "C[NH2]->[CuH2+2]<-[NH2]C" = "C[NH2]->[Cu+2]<-[NH2]C".
Proof. reflexivity. Qed.

Example clean_smiles_both_rules :
  clean_smiles "[NH+]<-[Zn]->[OH+2]" = "[N+]<-[Zn]->[O+2]".
Proof. reflexivity. Qed.

Example clean_smiles_greedy_digit :
  Re.sub metal_hydrogen_pattern (fun g1 _ => g1) "N->[CH12]" = "N->[C2]".
Proof. reflexivity. Qed.

Example parse_features_example :
  _parse_features Example.feature_line = Ok Example.ten_features.
Proof. reflexivity. Qed.

Example parse_features_short_line :
  _parse_features (float := IntegralFloat.float) ("complex 12.0" ++ newline)
  = Ok [].
Proof. reflexivity. Qed.

Example parse_features_bad_token :
  _parse_features (float := IntegralFloat.float) "complex 12.0 0.0 abc"
  = Raise InvalidInputError.
Proof. reflexivity. Qed.

(** An empty scalar list: the combined text starts with the separator and
    [float('')] raises [ValueError], whatever the length of the mask. *)
Example combine_features_no_scalars :
  _combine_features [] (descriptor_text (repeat 0%Z 50)) = Raise ValueError.
Proof. reflexivity. Qed.

Example reclassify_copper_diamine :
  GetBonds (reclassify DEFAULT_DONOR_ATOMS Example.copper_diamine)
  = [mkBond 1 3 SINGLE; mkBond 1 0 DATIVE; mkBond 2 0 DATIVE].
Proof. reflexivity. Qed.




(** C1, the claim as stated, fails: one scalar and forty descriptors make
    a combined vector of 41 entries under the mask of 50, and the
    exception is [IndexError], not one of the package's error classes. *)
Lemma mask_mismatch_is_IndexError :
  length (map round4 [1%Z] ++ Example.zeros) <> length FEATURE_MASK
  /\ _combine_features [1%Z] (descriptor_text Example.zeros) = Raise IndexError
  /\ LogKPredictError IndexError = false.
Proof. split; [discriminate|]. split; reflexivity. Qed.

Lemma mask_mismatch_raises_IndexError_witness :
  length (map round4 [1%Z] ++ Example.zeros) <> length FEATURE_MASK
  /\ _combine_features [1%Z] (descriptor_text Example.zeros) = Raise IndexError.
Proof.
  assert (H : length (map round4 [1%Z] ++ Example.zeros) <> length FEATURE_MASK)
    by discriminate.
  split; [exact H|].
  apply (mask_mismatch_raises_IndexError [1%Z] Example.zeros H); discriminate.
Defined.

(** C2, the claim as stated, fails: a record of three lines without a
    [$$$$] line is not refused as invalid input; its last line is taken
    as the structural block, and the error is the one of the molecular
    stage. *)
Lemma missing_terminator_reaches_molecular_stage :
  ~ has_terminator Example.unterminated
  /\ _extract_mol_block (skipn 2 Example.unterminated)
     = Ok ("no structure here" ++ newline)%string
  /\ predict_from_file Example.rdkit Example.chemprop
       (Example.files Example.unterminated) "logk_input"
     = Raise MolecularProcessingError.
Proof.
  split; [|split; reflexivity].
  intros Hx. unfold has_terminator, Example.unterminated in Hx.
  repeat (inversion_clear Hx as [? ? Hh|? ? Ht];
          [discriminate Hh | rename Ht into Hx]).
  inversion Hx.
Qed.

Lemma predict_from_file_invalid_input_witness :
  predict_from_file Example.rdkit Example.chemprop
    (Example.files ["header"; "complex 12.0 0.0"]) "logk_input"
  = Raise InvalidInputError.
Proof.
  refine (proj1 (proj2 (predict_from_file_invalid_input
           Example.rdkit Example.chemprop
           (Example.files ["header"; "complex 12.0 0.0"]) "logk_input")
           ["header"; "complex 12.0 0.0"] eq_refl) _).
  cbn [length]. lia.
Defined.

Lemma combined_vector_has_50_entries_witness :
  length (Py.split Example.feature_line) = 12
  /\ all_features_of Example.ten_features
       (descriptor_text
          (CalcDescriptors Example.rdkit SELECTED_DESCRIPTORS Example.water))
     = Ok (map round4 Example.ten_features
           ++ CalcDescriptors Example.rdkit SELECTED_DESCRIPTORS Example.water)
  /\ length (map round4 Example.ten_features
             ++ CalcDescriptors Example.rdkit SELECTED_DESCRIPTORS Example.water)
     = 50.
Proof.
  split; [reflexivity|].
  apply (combined_vector_has_50_entries Example.rdkit Example.water
           Example.feature_line (Py.split Example.feature_line)
           Example.ten_features).
  - apply tokens_of_split. reflexivity.
  - reflexivity.
  - reflexivity.
Defined.

Lemma masked_vector_spec_witness :
  np_bool_index [1; 2; 3]%Z [true; false; true] = Ok [1; 3]%Z
  /\ _combine_features_with [true; false; true] [1; 2]%Z (descriptor_text [3%Z])
     = Ok "1.0, 3.0".
Proof.
  assert (Hv : all_features_of [1; 2]%Z (descriptor_text [3%Z])
               = Ok [1; 2; 3]%Z) by reflexivity.
  destruct (masked_vector_spec [true; false; true] [1; 2]%Z
              (descriptor_text [3%Z]) [1; 2; 3]%Z 0%Z Hv eq_refl)
    as (H1 & H2 & _).
  split; [exact H1 | exact H2].
Defined.

Lemma masked_vector_has_21_values_witness :
  (exists masked : list IntegralFloat.float,
     length masked = 21
     /\ _combine_features Example.ten_features (descriptor_text Example.zeros)
        = Ok (Py.join ", " (map str_float64 masked)))
  /\ forall chemprop : Chemprop IntegralFloat.float,
       predict Demo.rdkit chemprop Example.ten_features "M  END"
       = (predictions_csv <-
            _run_chemprop_prediction chemprop
              ("smiles" ++ newline ++ "CN->[Cu]<-N" ++ newline)
              (feature_header ++ newline
               ++ "-1.0, 1.0, 6.0, 150.0, -20.0, 0.0, 1.0, 0.0, 0.0, 0.0, 0.0, 0.0, 0.0, 0.0, 0.0, 0.0, 0.0, 0.0, 0.0, 0.0, 0.0"
               ++ newline) ;;
          _extract_prediction chemprop predictions_csv).
Proof.
  split.
  - destruct (masked_vector_has_21_values Example.rdkit) as (_ & _ & _ & Hx & _).
    assert (Hd : calculate_descriptors Example.rdkit Example.water
                 = Ok (descriptor_text Example.zeros)) by reflexivity.
    destruct (Hx Example.water Example.ten_features
                (descriptor_text Example.zeros) "O" eq_refl Hd)
      as (masked & Hl & Hc & _).
    exists masked. split; [exact Hl | exact Hc].
  - destruct (masked_vector_has_21_values Demo.rdkit) as (_ & _ & _ & _ & Hx).
    exact (proj2 (proj2 (Hx Example.ten_features "M  END" Example.copper_diamine
                           eq_refl eq_refl))).
Defined.

(* ================================================================= *)
(** * Further properties of the package *)

(* ================================================================= *)
(** ** The metals of a molecule *)

Lemma GetAtoms_from (l : list Z) (k : nat) (a : Atom) :
  In a (map (fun p => mkAtom (fst p) (snd p)) (combine (seq k (length l)) l))
  <-> k <= GetIdx a /\ nth_error l (GetIdx a - k) = Some (GetAtomicNum a).
Proof.
  revert k; induction l as [|z l IH]; intros k; cbn [length seq combine map].
  - split; [intros []|]. intros [_ H]. now destruct (GetIdx a - k).
  - cbn [In]. rewrite IH. split.
    + intros [<-|[Hk Hn]]; cbn [GetIdx GetAtomicNum fst snd].
      * split; [lia|]. now rewrite Nat.sub_diag.
      * split; [lia|].
        replace (GetIdx a - k) with (S (GetIdx a - S k)) by lia. exact Hn.
    + intros [Hk Hn]. destruct (Nat.eq_dec (GetIdx a) k) as [E|E].
      * left. rewrite E, Nat.sub_diag in Hn. cbn in Hn. injection Hn as ->.
        destruct a as [i z']. cbn in *. now subst.
      * right. split; [lia|].
        replace (GetIdx a - k) with (S (GetIdx a - S k)) in Hn by lia.
        exact Hn.
Qed.

Lemma GetAtoms_sorted (P : Atom -> bool) (l : list Z) (k : nat) :
  StronglySorted lt
    (map GetIdx (filter P (map (fun p => mkAtom (fst p) (snd p))
                               (combine (seq k (length l)) l)))).
Proof.
  revert k; induction l as [|z l IH]; intros k; cbn [length seq combine map filter].
  - constructor.
  - destruct (P (mkAtom (fst (k, z)) (snd (k, z)))); [|apply IH].
    cbn [map]. constructor; [apply IH|].
    apply Forall_forall. intros i Hi. apply in_map_iff in Hi as (a & <- & Ha).
    apply filter_In in Ha as [Ha _]. apply GetAtoms_from in Ha.
    cbn [GetIdx fst]. lia.
Qed.

(** X1.  [_find_transition_metals] returns exactly the atoms of the
    molecule that [is_transition_metal] accepts, each once, in ascending
    index order. *)
Theorem find_transition_metals_exact (mol : Mol) :
  (forall a, In a (_find_transition_metals mol)
             <-> nth_error (atomic_nums mol) (GetIdx a) = Some (GetAtomicNum a)
                 /\ is_transition_metal a = true)
  /\ StronglySorted lt (map GetIdx (_find_transition_metals mol)).
Proof.
  unfold _find_transition_metals, GetAtoms. split.
  - intros a. rewrite filter_In, GetAtoms_from, Nat.sub_0_r.
    split; [intros [[_ Hn] Hm] | intros [Hn Hm]]; repeat split;
      try assumption; lia.
  - apply GetAtoms_sorted.
Qed.

(* ================================================================= *)
(** ** What [_convert_bonds_to_dative] does to the bonds *)

(** X2.  [_convert_bonds_to_dative] keeps the atoms and the number of
    bonds, whatever the metals and the donors it is given. *)
Theorem convert_keeps_atoms_and_bond_count (mol : Mol) (metals : list Atom)
  (donor_atoms : list Z) :
  atomic_nums (_convert_bonds_to_dative mol metals donor_atoms) = atomic_nums mol
  /\ length (GetBonds (_convert_bonds_to_dative mol metals donor_atoms))
     = length (GetBonds mol).
Proof.
  destruct mol as [nums B]. cbn [atomic_nums GetBonds].
  destruct (convert_bonds_perm donor_atoms nums metals B) as [Hn Hp].
  split; [exact Hn|]. apply Permutation_length in Hp.
  now rewrite Hp, length_map.
Qed.

(** X3.  After the conversion, with donors that are not themselves
    classified as metals, every bond that joins a classified metal to a
    donor atom is a dative bond that starts at the donor and ends at the
    metal. *)
Theorem metal_donor_bonds_become_dative (donor_atoms : list Z) (mol : Mol)
  (b : Bond) (metal : Atom) :
  donors_not_metals donor_atoms ->
  In b (GetBonds (reclassify donor_atoms mol)) ->
  In metal (_find_transition_metals mol) ->
  metal_donor donor_atoms (atomic_nums mol) metal b = true ->
  GetBondType b = DATIVE
  /\ GetEndAtomIdx b = GetIdx metal
  /\ exists z, nth_error (atomic_nums mol) (GetBeginAtomIdx b) = Some z
               /\ In z donor_atoms.
Proof.
  intros Hd Hb Hm Hmd.
  destruct (reclassify_settled donor_atoms mol Hd b Hb) as [Hn|Hdat].
  - rewrite (Hn metal Hm) in Hmd. discriminate.
  - destruct Hdat as (n & z & m & Hm' & Hz & Hdn & ->).
    cbn [GetBondType GetEndAtomIdx GetBeginAtomIdx].
    split; [reflexivity|]. split.
    + pose proof (donor_is_not_metal donor_atoms mol Hd n z metal Hm Hz Hdn) as Hne.
      unfold metal_donor, neighbor_across in Hmd.
      cbn [GetBeginAtomIdx GetEndAtomIdx] in Hmd.
      destruct (Nat.eqb_spec n (GetIdx metal)) as [E|_]; [contradiction|].
      destruct (Nat.eqb_spec (GetIdx m) (GetIdx metal)) as [E|_];
        [exact E | discriminate].
    + exists z. split; [exact Hz|]. apply is_donor_In in Hdn. exact Hdn.
Qed.

Lemma reclassified_plain (donor_atoms nums : list Z) (ms : list Atom) (b : Bond) :
  (forall m, In m ms -> metal_donor donor_atoms nums m b = false) ->
  reclassified donor_atoms nums ms b = b.
Proof.
  unfold reclassified. induction ms as [|m ms IH]; intros Hn; [reflexivity|].
  cbn [fold_left]. rewrite dative_of_plain by (apply Hn; now left).
  apply IH. intros x Hx. apply Hn. now right.
Qed.

(** X4.  A bond that joins no classified metal to a donor is still a bond
    of the molecule after the conversion; and, with donors that are not
    metals, every bond after the conversion is a bond of the input or the
    dative bond from a donor to a metal. *)
Theorem other_bonds_are_kept (donor_atoms : list Z) (mol : Mol) :
  (forall b, In b (GetBonds mol) ->
     (forall m, In m (_find_transition_metals mol) ->
                metal_donor donor_atoms (atomic_nums mol) m b = false) ->
     In b (GetBonds (reclassify donor_atoms mol)))
  /\ (donors_not_metals donor_atoms ->
      forall b, In b (GetBonds (reclassify donor_atoms mol)) ->
        In b (GetBonds mol)
        \/ dative_to donor_atoms (atomic_nums mol)
             (_find_transition_metals mol) b).
Proof.
  destruct (reclassify_structure donor_atoms mol) as [_ Hp]. split.
  - intros b Hb Hn. apply (Permutation_in _ (Permutation_sym Hp)).
    apply in_map_iff. exists b. split; [|exact Hb].
    now apply reclassified_plain.
  - intros Hd b Hb. apply (Permutation_in _ Hp) in Hb.
    apply in_map_iff in Hb as (b0 & <- & Hb0).
    destruct (reclassified_cases donor_atoms mol Hd
                (_find_transition_metals mol) b0 (incl_refl _)) as [[E _]|Hdat].
    + left. now rewrite E.
    + now right.
Qed.

(** X5.  For one metal, the bonds to its donor neighbours are taken out
    of the bond list and put back at its end as dative bonds, in the order
    they had; the other bonds keep their order at the front. *)
Theorem convert_metal_moves_donor_bonds_last (donor_atoms : list Z) (mol : Mol)
  (metal : Atom) :
  let donor_bond := metal_donor donor_atoms (atomic_nums mol) metal in
  convert_metal donor_atoms mol metal
  = mkMol (atomic_nums mol)
      (filter (fun b => negb (donor_bond b)) (GetBonds mol)
       ++ map (fun b => mkBond (if (GetBeginAtomIdx b =? GetIdx metal)%nat
                                then GetEndAtomIdx b else GetBeginAtomIdx b)
                               (GetIdx metal) DATIVE)
              (filter donor_bond (GetBonds mol))).
Proof.
  intros donor_bond. destruct mol as [nums B]. cbn [atomic_nums GetBonds] in *.
  rewrite convert_metal_bonds. f_equal. f_equal.
  apply map_ext_in. intros b Hb. apply filter_In in Hb as [_ Hb].
  unfold donor_bond, metal_donor in Hb. unfold dative_of, neighbor_across in *.
  destruct (Nat.eqb_spec (GetBeginAtomIdx b) (GetIdx metal)) as [E|E].
  - unfold atom_at in *. destruct (nth_error nums (GetEndAtomIdx b)) as [z|];
      [|discriminate Hb].
    cbn [existsb filter] in *. rewrite orb_false_r in Hb. now rewrite Hb.
  - destruct (Nat.eqb_spec (GetEndAtomIdx b) (GetIdx metal)) as [E'|E'];
      [|discriminate Hb].
    unfold atom_at in *. destruct (nth_error nums (GetBeginAtomIdx b)) as [z|];
      [|discriminate Hb].
    cbn [existsb filter] in *. rewrite orb_false_r in Hb. now rewrite Hb.
Qed.

(* ================================================================= *)
(** ** What [clean_smiles] can delete *)

Lemma without_append (a b : string) :
  without_hydrogen_counts (a ++ b)
  = (without_hydrogen_counts a ++ without_hydrogen_counts b)%string.
Proof.
  induction a as [|c a IH]; [reflexivity|].
  cbn [String.append without_hydrogen_counts].
  destruct (hydrogen_count_char c); [exact IH|].
  cbn [String.append]. now rewrite IH.
Qed.

Lemma optional_digit_gone (d : string) :
  optional is_digit d -> without_hydrogen_counts d = "".
Proof.
  intros [->|(c & -> & Hc)]; [reflexivity|].
  apply accepts_digit in Hc. cbn [without_hydrogen_counts].
  unfold hydrogen_count_char. now rewrite Hc, orb_true_r.
Qed.

Lemma token_gone (d rest : string) :
  optional is_digit d ->
  without_hydrogen_counts ("H" ++ d ++ rest) = without_hydrogen_counts rest.
Proof.
  intros Hd. change ("H" ++ d ++ rest)%string with (String "H" (d ++ rest)).
  cbn [without_hydrogen_counts].
  replace (hydrogen_count_char "H") with true by reflexivity.
  now rewrite without_append, (optional_digit_gone d Hd).
Qed.

Lemma rewritten_deletes (occ : string -> string -> string -> Prop)
  (s out : string) :
  (forall s kept rest, occ s kept rest ->
     without_hydrogen_counts s
     = (without_hydrogen_counts kept ++ without_hydrogen_counts rest)%string
     /\ String.length kept + String.length rest <= String.length s) ->
  rewritten occ s out ->
  without_hydrogen_counts out = without_hydrogen_counts s
  /\ String.length out <= String.length s.
Proof.
  intros Hocc. induction 1 as [|s kept rest out Ho Hr [IH1 IH2]|c r out Hn Hr [IH1 IH2]].
  - split; [reflexivity | lia].
  - destruct (Hocc _ _ _ Ho) as [E L]. split.
    + now rewrite without_append, IH1, E.
    + rewrite length_append. lia.
  - split.
    + cbn [without_hydrogen_counts]. now rewrite IH1.
    + cbn [String.length]. lia.
Qed.

Lemma metal_hydrogen_deletes (s kept rest : string) :
  metal_hydrogen_at s kept rest ->
  without_hydrogen_counts s
  = (without_hydrogen_counts kept ++ without_hydrogen_counts rest)%string
  /\ String.length kept + String.length rest <= String.length s.
Proof.
  intros (U & low & d & _ & _ & Hd & _ & _ & ->). split.
  - now rewrite without_append, token_gone.
  - rewrite !length_append. lia.
Qed.

Lemma hydrogen_bracket_deletes (s kept rest : string) :
  hydrogen_bracket_at s kept rest ->
  without_hydrogen_counts s
  = (without_hydrogen_counts kept ++ without_hydrogen_counts rest)%string
  /\ String.length kept + String.length rest <= String.length s.
Proof.
  intros (d & n & Hd & _ & _ & ->). split.
  - now rewrite token_gone, without_append.
  - rewrite !length_append. lia.
Qed.

(** X6.  [clean_smiles] only deletes: the result is never longer than the
    text, and once the letters H and the digits are set aside the result
    and the text are the same, so every other character is kept, in
    order. *)
Theorem clean_smiles_only_deletes_hydrogen_counts (smiles : string) :
  without_hydrogen_counts (clean_smiles smiles) = without_hydrogen_counts smiles
  /\ String.length (clean_smiles smiles) <= String.length smiles.
Proof.
  unfold clean_smiles.
  pose proof (sub_rewritten metal_hydrogen_pattern (fun g1 _ => g1)
                metal_hydrogen_at metal_hydrogen_match_occ
                metal_hydrogen_occ_match smiles) as R1.
  set (cleaned := Re.sub metal_hydrogen_pattern (fun g1 _ => g1) smiles) in *.
  pose proof (sub_rewritten hydrogen_bracket_pattern (fun _ g2 => g2)
                hydrogen_bracket_at hydrogen_bracket_match_occ
                hydrogen_bracket_occ_match cleaned) as R2.
  apply (rewritten_deletes _ _ _ metal_hydrogen_deletes) in R1 as [E1 L1].
  apply (rewritten_deletes _ _ _ hydrogen_bracket_deletes) in R2 as [E2 L2].
  split; [congruence | lia].
Qed.

Lemma mem_char_suffix (c : ascii) (pre suf : string) :
  Py.mem_char c (pre ++ suf) = false -> Py.mem_char c suf = false.
Proof.
  rewrite mem_char_append. intros H. now apply orb_false_elim in H as [_ H].
Qed.

(** X7.  A text with no [>] and no [<], so with no dative bond written in
    it, is returned unchanged by [clean_smiles]. *)
Theorem clean_smiles_without_dative_bond (smiles : string) :
  Py.mem_char ">" smiles = false ->
  Py.mem_char "<" smiles = false ->
  clean_smiles smiles = smiles.
Proof.
  intros Hgt Hlt. unfold clean_smiles.
  rewrite (sub_unchanged metal_hydrogen_pattern (fun g1 _ => g1)
             metal_hydrogen_at metal_hydrogen_match_occ
             metal_hydrogen_occ_match smiles).
  - apply (sub_unchanged hydrogen_bracket_pattern (fun _ g2 => g2)
             hydrogen_bracket_at hydrogen_bracket_match_occ
             hydrogen_bracket_occ_match smiles).
    intros pre suf kept rest -> (d & n & _ & _ & -> & ->).
    apply mem_char_suffix in Hlt.
    change ("H" ++ d ++ ("+" ++ n ++ "]<-") ++ rest)%string
      with (String "H" (d ++ String "+" ((n ++ "]<-") ++ rest))) in Hlt.
    cbn [Py.mem_char] in Hlt. apply orb_false_elim in Hlt as [_ Hlt].
    rewrite mem_char_append in Hlt. apply orb_false_elim in Hlt as [_ Hlt].
    cbn [Py.mem_char] in Hlt. apply orb_false_elim in Hlt as [_ Hlt].
    rewrite !mem_char_append in Hlt.
    replace (Py.mem_char "<" "]<-") with true in Hlt by reflexivity.
    rewrite orb_true_r in Hlt. discriminate Hlt.
  - intros pre suf kept rest -> (U & low & d & _ & _ & _ & _ & -> & ->).
    apply mem_char_suffix in Hgt.
    change (("->[" ++ String U low) ++ "H" ++ d ++ rest)%string
      with (String "-" (String ">" (String "[" (String U (low ++ "H" ++ d ++ rest)))))
      in Hgt.
    cbn [Py.mem_char] in Hgt. apply orb_false_elim in Hgt as [_ Hgt].
    apply orb_false_elim in Hgt as [Hgt _]. discriminate Hgt.
Qed.

(* ================================================================= *)
(** ** The structural block of a record *)

Lemma mol_lines_of_terminated (pre post : list string) (t : string) :
  ~ has_terminator pre -> Py.strip t = "$$$$" ->
  mol_lines_of (pre ++ t :: post) = pre.
Proof.
  unfold has_terminator. intros Hn Ht. induction pre as [|l pre IH].
  - change ([] ++ t :: post) with (t :: post).
    cbn [mol_lines_of]. now rewrite Ht.
  - change ((l :: pre) ++ t :: post) with (l :: pre ++ t :: post).
    cbn [mol_lines_of].
    destruct (String.eqb_spec (Py.strip l) "$$$$") as [E|_].
    + exfalso. apply Hn. now constructor.
    + f_equal. apply IH. intros Hx. apply Hn. now constructor 2.
Qed.

(** X8.  [_extract_mol_block] stops at the first [$$$$] line: the block
    is the lines before it, joined as they are, and neither the [$$$$]
    line nor anything after it has any effect. *)
Theorem extract_mol_block_stops_at_terminator (pre post : list string)
  (t : string) :
  ~ has_terminator pre -> Py.strip t = "$$$$" -> pre <> [] ->
  _extract_mol_block (pre ++ t :: post) = Ok (Py.join "" pre).
Proof.
  intros Hn Ht Hpre. unfold _extract_mol_block.
  rewrite (mol_lines_of_terminated pre post t Hn Ht).
  destruct pre; [congruence | reflexivity].
Qed.

(** X9.  [_extract_mol_block] fails exactly when there is no line at all
    or the first line is the [$$$$] line, and its only exception is
    [InvalidInputError]. *)
Theorem extract_mol_block_raises_iff (lines : list string) :
  (_extract_mol_block lines = Raise InvalidInputError
   <-> lines = [] \/ exists l rest, lines = l :: rest /\ Py.strip l = "$$$$")
  /\ (forall e, _extract_mol_block lines = Raise e -> e = InvalidInputError).
Proof.
  unfold _extract_mol_block. destruct lines as [|l rest]; cbn [mol_lines_of].
  - split; [|now intros e [= <-]]. split; [now left | reflexivity].
  - destruct (String.eqb_spec (Py.strip l) "$$$$") as [E|E].
    + split; [|now intros e [= <-]].
      split; [|reflexivity]. intros _. right. now exists l, rest.
    + split; [|discriminate]. split; [discriminate|].
      intros [H|(l' & rest' & [= <- <-] & H)]; [discriminate | contradiction].
Qed.

(* ================================================================= *)
(** ** Reading and assembling, further *)

Lemma split_token_then_space (t rest : string) :
  t <> "" -> no_space t ->
  Py.split_ws "" (t ++ String " " rest) = t :: Py.split_ws "" rest.
Proof.
  intros Ht Hn. rewrite split_ws_token by assumption.
  cbn [String.append Py.split_ws].
  replace (Py.isspace " ") with true by reflexivity.
  destruct t; [congruence | reflexivity].
Qed.

Section Pipeline.
Context {float : Type} `{PyFloat float}.
Variable rdkit : RDKit float.
Variable chemprop : Chemprop float.

(** X10.  [_parse_features] never reads the first two fields of the
    feature line: two lines that differ only there give the same result,
    whatever those fields hold. *)
Theorem parse_features_ignores_first_two_fields (t1 t2 u1 u2 rest : string) :
  t1 <> "" -> no_space t1 -> t2 <> "" -> no_space t2 ->
  u1 <> "" -> no_space u1 -> u2 <> "" -> no_space u2 ->
  _parse_features (t1 ++ String " " (t2 ++ String " " rest))
  = _parse_features (u1 ++ String " " (u2 ++ String " " rest)).
Proof.
  intros. rewrite !parse_features_unfold. unfold Py.split.
  now rewrite !split_token_then_space by assumption.
Qed.

(** X11.  [predict_from_file] never reads the header line: two files that
    differ only in their first line give the same result. *)
Theorem predict_from_file_ignores_header
  (files files' : string -> option (list string)) (input_file : string)
  (header header' : string) (rest : list string) :
  files input_file = Some (header :: rest) ->
  files' input_file = Some (header' :: rest) ->
  predict_from_file rdkit chemprop files input_file
  = predict_from_file rdkit chemprop files' input_file.
Proof.
  intros E E'. unfold predict_from_file. rewrite E, E'. cbn [length].
  destruct rest as [|f rest]; reflexivity.
Qed.

(** X12.  [predict_from_file] reads nothing after the first [$$$$] line:
    whatever follows it, the result is the one of the record that ends at
    that line. *)
Theorem predict_from_file_ignores_lines_after_terminator
  (files files' : string -> option (list string)) (input_file : string)
  (header feature_line t : string) (block post : list string) :
  ~ has_terminator block -> Py.strip t = "$$$$" ->
  files input_file = Some (header :: feature_line :: block ++ t :: post) ->
  files' input_file = Some (header :: feature_line :: block ++ [t]) ->
  predict_from_file rdkit chemprop files input_file
  = predict_from_file rdkit chemprop files' input_file.
Proof.
  intros Hn Ht E E'. unfold predict_from_file. rewrite E, E'.
  assert (L : forall post', (length (header :: feature_line :: block ++ t :: post')
                             <? 3)%nat = false).
  { intros post'. apply Nat.ltb_ge. cbn [length]. rewrite length_app.
    cbn [length]. lia. }
  rewrite !L. cbn [nth skipn]. unfold _extract_mol_block.
  now rewrite !(mol_lines_of_terminated block _ t Hn Ht).
Qed.

Lemma combine_features_ok_iff (features descs : list float) :
  length descs = 40 ->
  (exists out, _combine_features features (descriptor_text descs) = Ok out)
  <-> length features = 10.
Proof.
  intros Hd. unfold _combine_features.
  destruct features as [|f features].
  - unfold _combine_features_with. rewrite all_features_of_no_features.
    split; [intros [out E]; discriminate E | discriminate].
  - assert (Hv : all_features_of (f :: features) (descriptor_text descs)
                 = Ok (map round4 (f :: features) ++ descs)).
    { apply all_features_of_text; [discriminate|].
      destruct descs; [discriminate Hd | discriminate]. }
    rewrite (combine_features_with_array _ _ _ _ Hv).
    unfold np_bool_index. rewrite length_app, length_map, Hd.
    change (length FEATURE_MASK) with 50.
    change (50 =? 0)%nat with false. rewrite orb_false_r.
    destruct (Nat.eqb_spec 50 (length (f :: features) + 40)) as [E|E].
    + split; [intros _; lia|]. intros _. eexists. reflexivity.
    + split; [intros [out Ho]; discriminate Ho | intros; lia].
Qed.


(** X13.  With the 40 descriptor values of a molecule, [_combine_features]
    returns a line exactly when it is given 10 scalar features; with any
    other number it raises. *)
Theorem combine_features_needs_ten_scalars (mol : Mol) (features : list float)
  (descriptors_str : string) :
  calculate_descriptors rdkit mol = Ok descriptors_str ->
  (exists out, _combine_features features descriptors_str = Ok out)
  <-> length features = 10.
Proof.
  rewrite calculate_descriptors_ok. intros E.
  assert (E' : descriptors_str
               = descriptor_text (CalcDescriptors rdkit SELECTED_DESCRIPTORS mol))
    by congruence.
  rewrite E'. apply combine_features_ok_iff. apply CalcDescriptors_length.
Qed.

(** X14.  The line [_combine_features] returns depends on the scalar
    features only where [FEATURE_MASK] is true: two lists of 10 scalars
    that agree at those positions give the same line.  The mask is false
    at positions 0, 2 and 3, so the scalars there never reach the model. *)
Theorem combine_features_reads_masked_scalars_only
  (features features' descs : list float) :
  length features = 10 -> length features' = 10 -> length descs = 40 ->
  (forall i, i < 10 -> nth i FEATURE_MASK false = true ->
             nth_error features i = nth_error features' i) ->
  _combine_features features (descriptor_text descs)
  = _combine_features features' (descriptor_text descs)
  /\ nth 0 FEATURE_MASK true = false
  /\ nth 2 FEATURE_MASK true = false
  /\ nth 3 FEATURE_MASK true = false.
Proof.
  intros Hf Hf' Hd Hagree. split; [|repeat split; reflexivity].
  assert (Hdn : descs <> []) by (destruct descs; [discriminate Hd | discriminate]).
  do 10 (destruct features as [|? features]; [discriminate Hf|]).
  destruct features; [|discriminate Hf].
  do 10 (destruct features' as [|? features']; [discriminate Hf'|]).
  destruct features'; [|discriminate Hf'].
  pose proof (Hagree 1 ltac:(lia) eq_refl) as E1.
  pose proof (Hagree 4 ltac:(lia) eq_refl) as E4.
  pose proof (Hagree 5 ltac:(lia) eq_refl) as E5.
  pose proof (Hagree 6 ltac:(lia) eq_refl) as E6.
  pose proof (Hagree 7 ltac:(lia) eq_refl) as E7.
  pose proof (Hagree 8 ltac:(lia) eq_refl) as E8.
  pose proof (Hagree 9 ltac:(lia) eq_refl) as E9.
  cbn [nth_error] in E1, E4, E5, E6, E7, E8, E9.
  injection E1 as ->. injection E4 as ->. injection E5 as ->.
  injection E6 as ->. injection E7 as ->. injection E8 as ->.
  injection E9 as ->.
  unfold _combine_features.
  match goal with
  | |- _combine_features_with _ ?l _ = _combine_features_with _ ?l' _ =>
      rewrite (combine_features_with_array _ l _ _
                 (all_features_of_text l descs ltac:(discriminate) Hdn)),
              (combine_features_with_array _ l' _ _
                 (all_features_of_text l' descs ltac:(discriminate) Hdn))
  end.
  unfold np_bool_index. rewrite !length_app, !length_map, Hd.
  cbn [length]. change (length FEATURE_MASK) with 50. cbn [Nat.eqb Nat.add].
  rewrite FEATURE_MASK_value. cbn [map app select bind]. reflexivity.
Qed.

(** X15.  [predict] can only return a value when it is given exactly 10
    scalar features. *)
Theorem predict_requires_ten_features (features : list float)
  (mol_block : string) (y : float) :
  predict rdkit chemprop features mol_block = Ok y -> length features = 10.
Proof.
  unfold predict.
  destruct (process_mol_block rdkit mol_block) as [p|e] eqn:Hp; [|discriminate].
  apply process_mol_block_ok in Hp as (mol0 & _ & ->). cbn [bind fst snd].
  destruct (_combine_features features _) as [out|e] eqn:Hc; [|discriminate].
  intros _. apply (combine_features_ok_iff features
    (CalcDescriptors rdkit SELECTED_DESCRIPTORS
       (SanitizeMol rdkit (reclassify DEFAULT_DONOR_ATOMS mol0)))).
  - apply CalcDescriptors_length.
  - now exists out.
Qed.




(** X17.  The descriptor text that [calculate_descriptors] returns reads
    back, piece by piece, as the 40 descriptor values of the molecule in
    the order of [SELECTED_DESCRIPTORS]. *)
Theorem descriptor_text_reads_back (mol : Mol) (descriptors_str : string) :
  calculate_descriptors rdkit mol = Ok descriptors_str ->
  let vals := map (fun nm => Descriptor rdkit nm mol) SELECTED_DESCRIPTORS in
  Py.split_sep ", " descriptors_str = map str_float vals
  /\ comprehension py_float (Py.split_sep ", " descriptors_str) = Ok vals
  /\ length vals = 40.
Proof.
  rewrite calculate_descriptors_ok. unfold descriptor_text, CalcDescriptors.
  intros E. cbv zeta.
  set (vals := map (fun nm => Descriptor rdkit nm mol) SELECTED_DESCRIPTORS) in *.
  assert (E' : descriptors_str = Py.join ", " (map str_float vals))
    by congruence.
  rewrite E'. clear E E'.
  assert (L : length vals = 40) by (subst vals; now rewrite length_map).
  assert (E : Py.split_sep ", " (Py.join ", " (map str_float vals))
              = map str_float vals).
  { apply split_join; [|apply no_commas_str].
    intros Hx. apply (f_equal (@length _)) in Hx.
    rewrite length_map, L in Hx. discriminate Hx. }
  rewrite E. split; [reflexivity|]. split; [apply comprehension_str | exact L].
Qed.

End Pipeline.

(* ================================================================= *)
(** ** The constructor *)

Section ConstructorFacts.
Context {Path : Type}.
Variable host : Host Path.

(** X18.  The model directory: a non-empty [model_dir] argument is used
    as it is, without a look at the environment; otherwise a non-empty
    [LOGKPREDICT_DIR] is used; and [EnvironmentError], the only possible
    exception, is raised exactly when the argument is missing or empty and
    the variable is unset or empty. *)
Theorem model_directory_resolution (model_dir : option string) :
  (forall c r, model_dir = Some (String c r) ->
     _determine_model_directory host model_dir = Ok (Path_of host (String c r)))
  /\ (model_dir = None \/ model_dir = Some "" ->
      forall c r, environ_get host ENVIRONMENT_VARIABLE_NAME = Some (String c r) ->
      _determine_model_directory host model_dir = Ok (Path_of host (String c r)))
  /\ (_determine_model_directory host model_dir = Raise EnvironmentError
      <-> (model_dir = None \/ model_dir = Some "")
          /\ (environ_get host ENVIRONMENT_VARIABLE_NAME = None
              \/ environ_get host ENVIRONMENT_VARIABLE_NAME = Some ""))
  /\ (forall e, _determine_model_directory host model_dir = Raise e ->
                e = EnvironmentError).
Proof.
  unfold _determine_model_directory.
  destruct model_dir as [[|c r]|];
    destruct (environ_get host ENVIRONMENT_VARIABLE_NAME) as [[|c' r']|];
    (split; [intros ? ? [= ]; subst; reflexivity || discriminate|]);
    (split; [intros [?|?] ? ? [= ]; subst; try discriminate; reflexivity|]);
    (split; [|intros ? [= <-]; reflexivity]);
    (split; [intros; try discriminate; split; auto
            | intros [[?|?] [?|?]]; try discriminate; reflexivity]).
Qed.

(** X19.  An object that [__init__] returns points at a model file that
    exists, named [model.pt] in its model directory.  [__init__] fails
    with [ModelNotFoundError] exactly when the directory is resolved and
    holds no such file, with [EnvironmentError] exactly when no directory
    is resolved, and otherwise only with the [OSError] that [exists] lets
    through when the file cannot be examined. *)
Theorem constructor_checks_model_file (model_dir : option string) :
  (forall obj, LogKPredictor_init host model_dir = Ok obj ->
     _determine_model_directory host model_dir = Ok (self_model_dir obj)
     /\ self_model_path obj = joinpath host (self_model_dir obj) MODEL_FILENAME
     /\ path_exists host (self_model_path obj) = Some true)
  /\ (LogKPredictor_init host model_dir = Raise ModelNotFoundError
      <-> exists dir, _determine_model_directory host model_dir = Ok dir
                      /\ path_exists host (joinpath host dir MODEL_FILENAME)
                         = Some false)
  /\ (LogKPredictor_init host model_dir = Raise EnvironmentError
      <-> _determine_model_directory host model_dir = Raise EnvironmentError)
  /\ (LogKPredictor_init host model_dir = Raise OSError
      <-> exists dir, _determine_model_directory host model_dir = Ok dir
                      /\ path_exists host (joinpath host dir MODEL_FILENAME)
                         = None)
  /\ (forall e, LogKPredictor_init host model_dir = Raise e ->
                e = EnvironmentError \/ e = ModelNotFoundError \/ e = OSError).
Proof.
  unfold LogKPredictor_init, _validate_model_exists.
  destruct (_determine_model_directory host model_dir) as [dir|e] eqn:Hdir;
    cbn [bind].
  - destruct (path_exists host (joinpath host dir MODEL_FILENAME))
      as [[|]|] eqn:Hex; cbn [bind].
    + split; [intros obj E; assert (obj = mkLogKPredictor dir
                 (joinpath host dir MODEL_FILENAME)) by congruence;
              subst obj; cbn; auto|].
      split; [split; [discriminate|]; intros (dir' & E & Hx); congruence|].
      split; [split; discriminate|].
      split; [split; [discriminate|]; intros (dir' & E & Hx); congruence|].
      discriminate.
    + split; [discriminate|].
      split; [split; [intros _; now exists dir | reflexivity]|].
      split; [split; discriminate|].
      split; [split; [discriminate|]; intros (dir' & E & Hx); congruence|].
      intros e E. assert (e = ModelNotFoundError) by congruence. auto.
    + split; [discriminate|].
      split; [split; [discriminate|]; intros (dir' & E & Hx); congruence|].
      split; [split; discriminate|].
      split; [split; [intros _; now exists dir | reflexivity]|].
      intros e E. assert (e = OSError) by congruence. auto.
  - assert (He : e = EnvironmentError).
    { unfold _determine_model_directory in Hdir.
      destruct model_dir as [[|c r]|];
        destruct (environ_get host ENVIRONMENT_VARIABLE_NAME) as [[|c' r']|];
        now inversion Hdir. }
    subst e. split; [discriminate|].
    split; [split; [discriminate|]; intros (dir' & Hx & _); discriminate Hx|].
    split; [split; reflexivity|].
    split; [split; [discriminate|]; intros (dir' & Hx & _); discriminate Hx|].
    intros e E. assert (e = EnvironmentError) by congruence. auto.
Qed.

End ConstructorFacts.

(* ================================================================= *)
(** ** The further properties on concrete inputs *)

Lemma no_terminator_in_two_lines :
  ~ has_terminator Demo.block.
Proof.
  intros Hx. unfold has_terminator, Demo.block in Hx.
  repeat (inversion_clear Hx as [? ? Hh|? ? Ht];
          [discriminate Hh | rename Ht into Hx]).
  inversion Hx.
Qed.

Lemma metal_donor_bonds_become_dative_witness :
  In (mkBond 1 0 DATIVE)
     (GetBonds (reclassify DEFAULT_DONOR_ATOMS Example.copper_diamine))
  /\ GetBondType (mkBond 1 0 DATIVE) = DATIVE
  /\ GetEndAtomIdx (mkBond 1 0 DATIVE) = GetIdx (mkAtom 0 29%Z)
  /\ exists z, nth_error (atomic_nums Example.copper_diamine)
                 (GetBeginAtomIdx (mkBond 1 0 DATIVE)) = Some z
               /\ In z DEFAULT_DONOR_ATOMS.
Proof.
  assert (Hb : In (mkBond 1 0 DATIVE)
                  (GetBonds (reclassify DEFAULT_DONOR_ATOMS Example.copper_diamine)))
    by (right; left; reflexivity).
  assert (Hm : In (mkAtom 0 29%Z) (_find_transition_metals Example.copper_diamine))
    by (left; reflexivity).
  split; [exact Hb|].
  exact (metal_donor_bonds_become_dative DEFAULT_DONOR_ATOMS
           Example.copper_diamine (mkBond 1 0 DATIVE) (mkAtom 0 29%Z)
           default_donors_not_metals Hb Hm eq_refl).
Defined.

Lemma clean_smiles_without_dative_bond_witness :
  clean_smiles "C[NH2]C[OH2+]" = "C[NH2]C[OH2+]".
Proof.
  exact (clean_smiles_without_dative_bond "C[NH2]C[OH2+]" eq_refl eq_refl).
Defined.

Lemma extract_mol_block_stops_at_terminator_witness :
  _extract_mol_block (Demo.block ++ Demo.end_line :: Demo.second_record)
  = Ok (Py.join "" Demo.block).
Proof.
  apply (extract_mol_block_stops_at_terminator
           Demo.block Demo.second_record Demo.end_line).
  - exact no_terminator_in_two_lines.
  - reflexivity.
  - discriminate.
Defined.

Lemma parse_features_ignores_first_two_fields_witness :
  _parse_features (float := IntegralFloat.float)
    ("complex" ++ String " " ("12.0" ++ String " " "0.0 -1.0 2.0"))
  = _parse_features
    ("x" ++ String " " ("not-a-number" ++ String " " "0.0 -1.0 2.0")).
Proof.
  apply (parse_features_ignores_first_two_fields
           "complex" "12.0" "x" "not-a-number" "0.0 -1.0 2.0");
    first [discriminate | reflexivity].
Defined.

Lemma predict_from_file_ignores_header_witness :
  predict_from_file Demo.rdkit Demo.chemprop
    (Example.files ["name logK I" ++ newline; Example.feature_line;
                    "M  END" ++ newline; "$$$$"]%string) "logk_input"
  = predict_from_file Demo.rdkit Demo.chemprop
    (Example.files ["" ; Example.feature_line;
                    "M  END" ++ newline; "$$$$"]%string) "logk_input".
Proof.
  exact (predict_from_file_ignores_header Demo.rdkit Demo.chemprop
           (Example.files ["name logK I" ++ newline; Example.feature_line;
                           "M  END" ++ newline; "$$$$"]%string)
           (Example.files ["" ; Example.feature_line;
                           "M  END" ++ newline; "$$$$"]%string)
           "logk_input" ("name logK I" ++ newline)%string ""
           [Example.feature_line; "M  END" ++ newline; "$$$$"]%string
           eq_refl eq_refl).
Defined.

Lemma predict_from_file_ignores_lines_after_terminator_witness :
  predict_from_file Demo.rdkit Demo.chemprop
    (Example.files
       ("header" :: Example.feature_line
        :: Demo.block ++ Demo.end_line :: Demo.second_record)) "logk_input"
  = predict_from_file Demo.rdkit Demo.chemprop
    (Example.files
       ("header" :: Example.feature_line :: Demo.block ++ [Demo.end_line]))
    "logk_input".
Proof.
  exact (predict_from_file_ignores_lines_after_terminator
           Demo.rdkit Demo.chemprop _ _ "logk_input" "header"
           Example.feature_line Demo.end_line Demo.block Demo.second_record
           no_terminator_in_two_lines eq_refl eq_refl eq_refl).
Defined.

Lemma combine_features_needs_ten_scalars_witness :
  calculate_descriptors Example.rdkit Example.water
  = Ok (descriptor_text Example.zeros)
  /\ ((exists out, _combine_features Example.ten_features
                     (descriptor_text Example.zeros) = Ok out)
      <-> length Example.ten_features = 10).
Proof.
  assert (Hd : calculate_descriptors Example.rdkit Example.water
               = Ok (descriptor_text Example.zeros)) by reflexivity.
  split; [exact Hd|].
  exact (combine_features_needs_ten_scalars Example.rdkit Example.water
           Example.ten_features (descriptor_text Example.zeros) Hd).
Defined.

Lemma combine_features_reads_masked_scalars_only_witness :
  _combine_features Example.ten_features (descriptor_text Example.zeros)
  = _combine_features [7; -1; 8; 9; 1; 6; 150; -20; 0; 1]%Z
      (descriptor_text Example.zeros).
Proof.
  refine (proj1 (combine_features_reads_masked_scalars_only
                   Example.ten_features [7; -1; 8; 9; 1; 6; 150; -20; 0; 1]%Z
                   Example.zeros eq_refl eq_refl eq_refl _)).
  intros i Hi Hm.
  do 10 (destruct i as [|i]; [first [reflexivity | discriminate Hm]|]).
  lia.
Defined.

Lemma predict_requires_ten_features_witness :
  predict Demo.rdkit Demo.chemprop Example.ten_features "M  END" = Ok 5%Z
  /\ length Example.ten_features = 10.
Proof.
  assert (Hp : predict Demo.rdkit Demo.chemprop Example.ten_features "M  END"
               = Ok 5%Z) by reflexivity.
  split; [exact Hp|].
  exact (predict_requires_ten_features Demo.rdkit Demo.chemprop
           Example.ten_features "M  END" 5%Z Hp).
Defined.



Lemma descriptor_text_reads_back_witness :
  Py.split_sep ", " (descriptor_text Example.zeros) = map str_float Example.zeros
  /\ comprehension py_float (Py.split_sep ", " (descriptor_text Example.zeros))
     = Ok Example.zeros.
Proof.
  assert (Hd : calculate_descriptors Example.rdkit Example.water
               = Ok (descriptor_text Example.zeros)) by reflexivity.
  destruct (descriptor_text_reads_back Example.rdkit Example.water
              (descriptor_text Example.zeros) Hd) as (H1 & H2 & _).
  split; [exact H1 | exact H2].
Defined.

(** The constructor on a machine with the variable set and the model file
    in place, with a directory that holds no model file, and with one
    that may not be searched. *)
Example constructor_from_environment :
  LogKPredictor_init Demo.host None
  = Ok (mkLogKPredictor "/opt/logk" "/opt/logk/model.pt")
  /\ LogKPredictor_init Demo.host (Some "") = LogKPredictor_init Demo.host None
  /\ LogKPredictor_init Demo.host (Some "/tmp") = Raise ModelNotFoundError
  /\ LogKPredictor_init Demo.host (Some "/root/models") = Raise OSError.
Proof. repeat split. Qed.
